(** * arc: the analytics recorder, its middleware chain and the log-store bootstrap

    A shallow embedding of
      - [plugins/analytics]: the middleware [list], [classifyCategory],
        [recorder] and the background task [recordResponse];
      - [plugins/logs]: [initPlugin], which bootstraps the index of the store.

    Go library functions the code calls ([strings], [bytes], [net/url],
    [strconv], [net/http], [httptest]) are modelled next to the code that
    uses them.  Packages of the repository the two files import but that are
    not part of the verified sources come in as parameters. *)

From Stdlib Require Import ZArith Floats Ascii String.
From stdpp Require Import base gmap strings list.

Local Open Scope string_scope.
Local Open Scope list_scope.

Set Warnings "-clear-no-such-hyp".

(** ** Go's [strings] and [bytes] *)

Module GoStrings.

(** [strings.HasPrefix(s, prefix)] *)
Definition HasPrefix (s prefix : string) : bool := String.prefix prefix s.

(** [strings.Contains(s, substr)] *)
Fixpoint Contains (s substr : string) : bool :=
  HasPrefix s substr ||
  match s with
  | EmptyString => false
  | String _ s' => Contains s' substr
  end.

(** The scan of [bytes.Replace(s, old, new, -1)] for a non-empty [old]:
    occurrences are replaced left to right and do not overlap; [skip]
    counts the bytes of the current occurrence still to be passed over. *)
Fixpoint replaceFrom (skip : nat) (old new s : string) : string :=
  match s with
  | EmptyString => EmptyString
  | String c s' =>
      match skip with
      | S k => replaceFrom k old new s'
      | O =>
          if HasPrefix s old
          then new +:+ replaceFrom (String.length old - 1) old new s'
          else String c (replaceFrom 0 old new s')
      end
  end.

Definition Replace (s old new : string) : string := replaceFrom 0 old new s.

End GoStrings.

(** ** Go's [net/url]: [QueryUnescape] *)

Module url.

Definition between (lo hi : nat) (c : ascii) : bool :=
  let n := nat_of_ascii c in (lo <=? n)%nat && (n <=? hi)%nat.

Definition ishex (c : ascii) : bool :=
  between 48 57 c || between 97 102 c || between 65 70 c.

Definition unhex (c : ascii) : nat :=
  let n := nat_of_ascii c in
  if between 48 57 c then n - 48
  else if between 97 102 c then n - 97 + 10
  else if between 65 70 c then n - 65 + 10
  else 0.

(** [url.QueryUnescape]: [%XY] becomes the byte [0xXY], [+] becomes a
    space; a [%] not followed by two hexadecimal digits is an
    [EscapeError] ([None]). *)
Fixpoint QueryUnescape (s : string) : option string :=
  match s with
  | EmptyString => Some EmptyString
  | String c rest =>
      if Ascii.eqb c "%" then
        match rest with
        | String a (String b rest') =>
            if ishex a && ishex b
            then String (ascii_of_nat (unhex a * 16 + unhex b)) <$> QueryUnescape rest'
            else None
        | _ => None
        end
      else if Ascii.eqb c "+" then String " " <$> QueryUnescape rest
      else String c <$> QueryUnescape rest
  end.

End url.

(** ** Go's [strconv]: [ParseBool] and [Atoi] *)

Module strconv.

Definition member (s : string) (l : list string) : bool :=
  existsb (String.eqb s) l.

Definition ParseBool (str : string) : option bool :=
  if member str ["1"; "t"; "T"; "TRUE"; "true"; "True"] then Some true
  else if member str ["0"; "f"; "F"; "FALSE"; "false"; "False"] then Some false
  else None.

Definition minInt : Z := (- 2 ^ 63)%Z.
Definition maxInt : Z := (2 ^ 63 - 1)%Z.

Fixpoint digits (s : string) (acc : Z) : option Z :=
  match s with
  | EmptyString => Some acc
  | String c s' =>
      if url.between 48 57 c
      then digits s' (acc * 10 + (Z.of_nat (nat_of_ascii c) - 48))%Z
      else None
  end.

(** [strconv.Atoi] on a 64-bit platform: an optional sign, at least one
    decimal digit, and a value that fits [int]. *)
Definition Atoi (s : string) : option Z :=
  match s with
  | EmptyString => None
  | String c s' =>
      let '(neg, body) :=
        if Ascii.eqb c "-" then (true, s')
        else if Ascii.eqb c "+" then (false, s')
        else (false, s) in
      match body with
      | EmptyString => None
      | _ =>
          n ← digits body 0;
          let v := if neg then (- n)%Z else n in
          if (minInt <=? v)%Z && (v <=? maxInt)%Z then Some v else None
      end
  end.

End strconv.

(** ** Go's [net/http] and [httptest] *)

Module http.

(** [http.Header] is a [map[string][]string].  It is kept as an association
    list whose order is the order in which a [range] over the map visits
    its keys: Go leaves that order unspecified, so every list order is one
    the runtime may choose.  Keys are in canonical MIME form, as the
    server's request parser stores them, so [Get] and [Set] address the
    key as it is written. *)
Definition Header : Type := list (string * list string).

Fixpoint Header_values (h : Header) (k : string) : option (list string) :=
  match h with
  | [] => None
  | (k', vs) :: h' => if String.eqb k k' then Some vs else Header_values h' k
  end.

(** [h.Get(k)]: the first value of [k], or the empty string. *)
Definition Header_Get (h : Header) (k : string) : string :=
  match Header_values h k with
  | Some (v :: _) => v
  | _ => EmptyString
  end.

(** [h[k] = vs] *)
Fixpoint Header_assign (h : Header) (k : string) (vs : list string) : Header :=
  match h with
  | [] => [(k, vs)]
  | (k', vs') :: h' =>
      if String.eqb k k' then (k, vs) :: h' else (k', vs') :: Header_assign h' k vs
  end.

(** [h.Set(k, v)] *)
Definition Header_Set (h : Header) (k v : string) : Header := Header_assign h k [v].

Definition Header_keys (h : Header) : list string := h.*1.

End http.

(** Modelled from the spec: the declaration of [category.Category] in
    [model/category] is not among the verified sources; the data model
    lists its variants. *)
Module category.

Inductive Category :=
| Docs | Search | Indices | Cat | Clusters | Misc
| User | Permission | Analytics | Logs | Streams.

#[global] Instance Category_eq_dec : EqDecision Category.
Proof. solve_decision. Defined.

End category.

(** The request: its headers, its URI, and the two values the classifier
    stage leaves in its context ([category.FromContext], [index.FromContext]
    fail when the value is absent). *)
Record Request := mkRequest {
  r_Header : http.Header;
  r_RequestURI : string;
  r_ctxCategory : option category.Category;
  r_ctxIndices : option (list string)
}.

Definition withHeader (r : Request) (h : http.Header) : Request :=
  mkRequest h (r_RequestURI r) (r_ctxCategory r) (r_ctxIndices r).

Definition withCategory (r : Request) (c : category.Category) : Request :=
  mkRequest (r_Header r) (r_RequestURI r) (Some c) (r_ctxIndices r).

(** The state behind an [http.ResponseWriter].  The server's writer and
    [httptest.ResponseRecorder] share it: the live header map, whether the
    status line has gone out, the status, the headers as they were when it
    went out, and the body written so far.  What the server adds of its own
    when it sends the status line (Date, a sniffed Content-Type) is not
    part of it. *)
Record ResponseWriter := mkWriter {
  w_Header : http.Header;
  w_wroteHeader : bool;
  w_Code : Z;
  w_snapHeader : http.Header;
  w_Body : string
}.

(** [httptest.NewRecorder()] *)
Definition NewRecorder : ResponseWriter := mkWriter [] false 200 [] EmptyString.

Definition w_assign (k : string) (vs : list string) (w : ResponseWriter) : ResponseWriter :=
  mkWriter (http.Header_assign (w_Header w) k vs) (w_wroteHeader w) (w_Code w)
           (w_snapHeader w) (w_Body w).

(** [w.WriteHeader(code)]: the first call fixes status and headers. *)
Definition WriteHeader (code : Z) (w : ResponseWriter) : ResponseWriter :=
  if w_wroteHeader w then w
  else mkWriter (w_Header w) true code (w_Header w) (w_Body w).

(** [w.Write(b)]: sends the status line with 200 if none has gone out. *)
Definition Write (b : string) (w : ResponseWriter) : ResponseWriter :=
  let w' := WriteHeader 200 w in
  mkWriter (w_Header w') (w_wroteHeader w') (w_Code w') (w_snapHeader w') (w_Body w' +:+ b).

(** An [http.HandlerFunc] acts on the writer it is given and on the request
    it is handed by pointer. *)
Definition Handler : Type := ResponseWriter -> Request -> ResponseWriter * Request.
Definition Middleware : Type := Handler -> Handler.

(** ** The analytics record *)

Definition float64 : Type := PrimFloat.float.

(** Modelled from the spec: what [iplookup] returns as coordinates is not
    among the verified sources; the data model has [location] as a latitude
    and a longitude. *)
Record Coordinates := mkCoordinates { lat : float64; lon : float64 }.

(** The values a record ([map[string]interface{}]) holds. *)
Inductive Value :=
| VFloat (x : float64)
| VInt (n : Z)
| VBool (b : bool)
| VString (s : string)
| VStrings (l : list string)
| VHits (l : list (gmap string string))
| VStringMap (m : gmap string string)
| VCoordinates (c : Coordinates).

(** Decoded JSON, for the [map[string]interface{}] of a hit's source. *)
#[warnings="-register-all"] Inductive JSON :=
| JNull
| JBool (b : bool)
| JNumber (x : float64)
| JString (s : string)
| JArray (l : list JSON)
| JObject (fields : list (string * JSON)).

Record searchHit := mkSearchHit {
  Source : option (list (string * JSON));
  Type_ : string;
  ID : string
}.

Record searchResponse := mkSearchResponse {
  Took : float64;
  Hits_Total : Z;
  Hits_Hits : list searchHit
}.

Record mSearchResponse := mkMSearchResponse { Responses : list searchResponse }.

(** The zero value of [searchResponse] ([var esResponse searchResponse]). *)
Definition zeroSearchResponse : searchResponse := mkSearchResponse 0%float 0 [].

(** ** Effects: what a handler run and a background task do, in program order *)

Inductive LogMsg :=
| LogCategoryMissing
| LogHeaderDecode
| LogUnmarshalMSearch (body : string)
| LogUnmarshalSearch (body : string)
| LogMarshalSource
| LogIndicesMissing
| LogCoordinates (ip : string)
| LogCountry (ip : string)
| LogInvalidBool (value header : string)
| LogInvalidInt (value header : string).

Inductive Target := OnClient | OnRecorder.

(** The arguments of [go a.recordResponse(docID, searchID, respRecorder, r)]. *)
Record Task := mkTask {
  taskDocID : string;
  taskSearchID : string;
  taskW : ResponseWriter;
  taskR : Request
}.

Inductive Event :=
| EvLog (m : LogMsg)
| EvServe (target : Target) (r : Request)
| EvWriteBackError (msg : string) (code : Z)
| EvHeaderAssign (k : string) (vs : list string)
| EvHeaderSet (k v : string)
| EvWriteHeader (code : Z)
| EvWrite (b : string)
| EvGo (t : Task)
| EvIndexRecord (docID : string) (rec : gmap string Value).

(** What the request's worker has done so far: the state of the client's
    writer and the trace of its steps. *)
Record World := mkWorld { client : ResponseWriter; trace : list Event }.

Definition M (A : Type) : Type := World -> A * World.

#[global] Instance M_ret : MRet M := fun A a s => (a, s).
#[global] Instance M_bind : MBind M :=
  fun A B f m s => let '(a, s') := m s in f a s'.

(** One step on the client's writer, recorded in the trace. *)
Definition perform (e : Event) (f : ResponseWriter -> ResponseWriter) : M unit :=
  fun s => (tt, mkWorld (f (client s)) (trace s ++ [e])).

Definition emit (e : Event) : M unit := perform e id.

Definition run {A} (m : M A) (w : ResponseWriter) : World := (m (mkWorld w [])).2.


(** A background task logs, may stop early ([return]), and ends in a call
    of the store; [None] is a task that has returned. *)
Definition T (A : Type) : Type := list Event * option A.

#[global] Instance T_ret : MRet T := fun A a => ([], Some a).
#[global] Instance T_bind : MBind T :=
  fun A B f m =>
    match m with
    | (l, None) => (l, None)
    | (l, Some a) => let '(l', b) := f a in (l ++ l', b)
    end.

Definition tell (e : Event) : T unit := ([e], Some tt).
Definition stop {A} : T A := ([], None).

(** ** [plugins/analytics] *)

(** What the package takes from outside the verified sources: [util],
    [iplookup], the package's own [parse], and Go's [encoding/json] at the
    two response types and at a hit's source. *)
Record Externals := mkExternals {
  util_WriteBackError : string -> Z -> ResponseWriter -> ResponseWriter;
  json_Unmarshal_search : string -> option searchResponse;
  json_Unmarshal_msearch : string -> option mSearchResponse;
  json_Marshal : option (list (string * JSON)) -> option string;
  parse : string -> gmap string string;
  iplookup_FromRequest : Request -> string;
  iplookup_GetCoordinates : string -> option Coordinates;
  iplookup_GetCountry : string -> option string
}.

Module analytics.

Definition XSearchQuery := "X-Search-Query".
Definition XSearchID := "X-Search-Id".
Definition XSearchFilters := "X-Search-Filters".
Definition XSearchClick := "X-Search-Click".
Definition XSearchClickPosition := "X-Search-Click-Position".
Definition XSearchConversion := "X-Search-Conversion".
Definition XSearchCustomEvent := "X-Search-Custom-Event".

(** [classifyCategory]: every route of the plugin is of category Analytics. *)
Definition classifyCategory : Middleware :=
  fun h w req => h w (withCategory req category.Analytics).

(** The loop that decodes the analytics headers and sets them back.  [keys]
    are the keys still to be visited; the result is the header map when the
    loop is left and whether it ran to its end ([false]: a value did not
    unescape, and the loop was left at that key). *)
Fixpoint decodeHeaders (keys : list string) (hdr : http.Header) : http.Header * bool :=
  match keys with
  | [] => (hdr, true)
  | header :: keys' =>
      if GoStrings.HasPrefix header "X-Search-" then
        match url.QueryUnescape (http.Header_Get hdr header) with
        | None => (hdr, false)
        | Some parsedValue => decodeHeaders keys' (http.Header_Set hdr header parsedValue)
        end
      else decodeHeaders keys' hdr
  end.

(** [h(w, r)] on the client's writer. *)
Definition serve (h : Handler) (r : Request) : M unit :=
  fun s => (tt, mkWorld (h (client s) r).1 (trace s ++ [EvServe OnClient r])).

(** [for k, v := range respRecorder.Header() { w.Header()[k] = v }] *)
Fixpoint copyHeader (src : http.Header) : M unit :=
  match src with
  | [] => mret tt
  | (k, v) :: src' => perform (EvHeaderAssign k v) (w_assign k v) ;; copyHeader src'
  end.

Section Recorder.

Variable ext : Externals.

(** [recorder]: [uuid_New] is what [uuid.New().String()] returns if it is
    called. *)
Definition recorder (h : Handler) (uuid_New : string) (r : Request) : M unit :=
  match r_ctxCategory r with
  | None =>
      let msg := "an error occurred while recording search request" in
      emit (EvLog LogCategoryMissing) ;;
      perform (EvWriteBackError msg 500) (util_WriteBackError ext msg 500)
  | Some reqACL =>
      let '(hdr, ok) := decodeHeaders (http.Header_keys (r_Header r)) (r_Header r) in
      let r := withHeader r hdr in
      if ok then
        let searchQuery := http.Header_Get (r_Header r) XSearchQuery in
        let searchID := http.Header_Get (r_Header r) XSearchID in
        if bool_decide (reqACL ≠ category.Search)
           || (bool_decide (searchQuery = "") && bool_decide (searchID = ""))
        then serve h r
        else
          let docID := if bool_decide (searchID = "") then uuid_New else searchID in
          let '(respRecorder, r') := h NewRecorder r in
          emit (EvServe OnRecorder r) ;;
          copyHeader (w_Header respRecorder) ;;
          perform (EvHeaderSet XSearchID docID) (w_assign XSearchID [docID]) ;;
          perform (EvWriteHeader (w_Code respRecorder)) (WriteHeader (w_Code respRecorder)) ;;
          perform (EvWrite (w_Body respRecorder)) (Write (w_Body respRecorder)) ;;
          emit (EvGo (mkTask docID searchID respRecorder r'))
      else
        emit (EvLog LogHeaderDecode) ;;
        serve h r
  end.

(** The body of the task, decoded: the first response of an [_msearch], the
    response itself otherwise. *)
Definition decodeResponse (uri respBody : string) : T searchResponse :=
  if GoStrings.Contains uri "_msearch" then
    match json_Unmarshal_msearch ext respBody with
    | None => tell (EvLog (LogUnmarshalMSearch respBody)) ;; stop
    | Some m =>
        mret (match Responses m with
              | first :: _ => first
              | [] => zeroSearchResponse
              end)
    end
  else
    match json_Unmarshal_search ext respBody with
    | None => tell (EvLog (LogUnmarshalSearch respBody)) ;; stop
    | Some esResponse => mret esResponse
    end.

Definition mkHit (x : searchHit) (raw : string) : gmap string string :=
  <["source" := raw]> (<["type" := Type_ x]> (<["id" := ID x]> ∅)).

(** [for i := 0; i < 10 && i < len(hits); i++]: [n] is [10 - i], [hs] the
    hits from index [i] on; a source that does not marshal is logged and
    skipped. *)
Fixpoint hitsLoop (n : nat) (hs : list searchHit) : T (list (gmap string string)) :=
  match n, hs with
  | S n', x :: hs' =>
      match json_Marshal ext (Source x) with
      | None => tell (EvLog LogMarshalSource) ;; hitsLoop n' hs'
      | Some raw => hits ← hitsLoop n' hs'; mret (mkHit x raw :: hits)
      end
  | _, _ => mret []
  end.

(** The fields of a new search (the branch [searchID == ""]). *)
Definition searchFields (now : string) (r : Request) (esResponse : searchResponse)
    (hits : list (gmap string string)) (record : gmap string Value)
    : T (gmap string Value) :=
  match r_ctxIndices r with
  | None => tell (EvLog LogIndicesMissing) ;; stop
  | Some ctxIndices =>
      let record := <["indices" := VStrings ctxIndices]> record in
      let record := <["search_query" := VString (http.Header_Get (r_Header r) XSearchQuery)]> record in
      let record := <["hits_in_response" := VHits hits]> record in
      let record := <["total_hits" := VInt (Hits_Total esResponse)]> record in
      let record := <["timestamp" := VString now]> record in
      let searchFilters := parse ext (http.Header_Get (r_Header r) XSearchFilters) in
      mret (if (0 <? size searchFilters)%nat
            then <["search_filters" := VStringMap searchFilters]> record
            else record)
  end.

(** A header that holds a bool or an int: recorded when it parses, logged
    when it does not, left out when it is empty. *)
Definition parsedField {A} (conv : string -> option A) (inj : A -> Value)
    (bad : string -> string -> LogMsg) (r : Request) (header key : string)
    (record : gmap string Value) : T (gmap string Value) :=
  let value := http.Header_Get (r_Header r) header in
  if bool_decide (value ≠ "") then
    match conv value with
    | Some x => mret (<[key := inj x]> record)
    | None => tell (EvLog (bad value header)) ;; mret record
    end
  else mret record.

(** The record of a decoded response: everything [recordResponse] does
    between decoding the body and calling the store.  [now] is
    [time.Now().Format(time.RFC3339)]. *)
Definition buildRecord (now searchID : string) (r : Request) (esResponse : searchResponse)
    : T (gmap string Value) :=
  hits ← hitsLoop 10 (Hits_Hits esResponse);
  let record : gmap string Value := <["took" := VFloat (Took esResponse)]> ∅ in
  record ← (if bool_decide (searchID = "")
            then searchFields now r esResponse hits record
            else mret record);
  let ipAddr := iplookup_FromRequest ext r in
  let record := <["ip" := VString ipAddr]> record in
  record ← match iplookup_GetCoordinates ext ipAddr with
           | None => tell (EvLog (LogCoordinates ipAddr)) ;; mret record
           | Some coordinates => mret (<["location" := VCoordinates coordinates]> record)
           end;
  record ← match iplookup_GetCountry ext ipAddr with
           | None => tell (EvLog (LogCountry ipAddr)) ;; mret record
           | Some country => mret (<["country" := VString country]> record)
           end;
  record ← parsedField strconv.ParseBool VBool LogInvalidBool r XSearchClick "click" record;
  record ← parsedField strconv.Atoi VInt LogInvalidInt r XSearchClickPosition "click_position" record;
  record ← parsedField strconv.ParseBool VBool LogInvalidBool r XSearchConversion "conversion" record;
  let customEvents := parse ext (http.Header_Get (r_Header r) XSearchCustomEvent) in
  mret (if (0 <? size customEvents)%nat
        then <["custom_events" := VStringMap customEvents]> record
        else record).

(** [recordResponse] from the decoded response on: build the record and
    hand it to the store ([a.es.indexRecord(ctx, docID, record)]). *)
Definition recordDecoded (now docID searchID : string) (r : Request)
    (esResponse : searchResponse) : T unit :=
  record ← buildRecord now searchID r esResponse;
  tell (EvIndexRecord docID record).

(** The three [bytes.Replace] calls on the body. *)
Definition replaceFields (respBody : string) : string :=
  let respBody := GoStrings.Replace respBody "_source" "source" in
  let respBody := GoStrings.Replace respBody "_type" "type" in
  GoStrings.Replace respBody "_id" "id".

(** [recordResponse].  The body of a recorder reads without error. *)
Definition recordResponse (now docID searchID : string) (w : ResponseWriter) (r : Request)
    : T unit :=
  let respBody := w_Body w in
  let respBody := replaceFields respBody in
  esResponse ← decodeResponse (r_RequestURI r) respBody;
  recordDecoded now docID searchID r esResponse.

(** The task the [go] statement starts. *)
Definition runTask (now : string) (t : Task) : list Event :=
  (recordResponse now (taskDocID t) (taskSearchID t) (taskW t) (taskR t)).1.

End Recorder.

End analytics.

(** The tasks a trace starts and the records it hands to the store. *)
Definition spawned (tr : list Event) : list Task :=
  omap (fun e => match e with EvGo t => Some t | _ => None end) tr.

Definition storeCalls (tr : list Event) : list (string * gmap string Value) :=
  omap (fun e => match e with EvIndexRecord docID rec => Some (docID, rec) | _ => None end) tr.

Definition isLog (e : Event) : Prop :=
  match e with EvLog _ => True | _ => False end.

(** What one step of a trace does to the client's writer, and the writer
    after a whole trace. *)
Definition clientStep (ext : Externals) (h : Handler) (e : Event) (w : ResponseWriter)
    : ResponseWriter :=
  match e with
  | EvServe OnClient r => (h w r).1
  | EvWriteBackError msg code => util_WriteBackError ext msg code w
  | EvHeaderAssign k vs => w_assign k vs w
  | EvHeaderSet k v => w_assign k [v] w
  | EvWriteHeader code => WriteHeader code w
  | EvWrite b => Write b w
  | _ => w
  end.

Definition replay (ext : Externals) (h : Handler) (tr : list Event) (w : ResponseWriter)
    : ResponseWriter :=
  fold_left (fun w e => clientStep ext h e w) tr w.

(** ** [middleware/order] and the chain of the analytics routes *)

Module order.

(** Modelled from the spec: [order.Fifo.Adapt] is not among the verified
    sources.  "A chain is an ordered list applied FIFO: the first element is
    the outermost wrapper." *)
Definition Adapt (h : Handler) (m : list Middleware) : Handler :=
  foldr (fun mw inner => mw inner) h m.

End order.

Module chain.

Section Chain.

(** The middleware of the packages [classify], [logs], [auth] and
    [validate]. *)
Variables classify_Op classify_Indices logs_Recorder auth_BasicAuth : Middleware.
Variables validate_Indices validate_Operation validate_Category : Middleware.

Definition list : Datatypes.list Middleware :=
  [ analytics.classifyCategory;
    classify_Op;
    classify_Indices;
    logs_Recorder;
    auth_BasicAuth;
    validate_Indices;
    validate_Operation;
    validate_Category ].

Definition Wrap (h : Handler) : Handler := order.Adapt h list.

End Chain.

End chain.

(** ** [plugins/logs]: the bootstrap of the store's index *)

(** Go's [int] on a 64-bit platform. *)
Definition wrap_int (z : Z) : Z := ((z + 2 ^ 63) mod 2 ^ 64 - 2 ^ 63)%Z.
Definition int_sub (a b : Z) : Z := wrap_int (a - b).

Module logs.

(** [fmt.Sprintf(config, nodes, nodes-1)], kept as the format and its two
    operands.  The second operand fills number_of_replicas ("set
    number_of_replicas to (nodes-1)"). *)
Record Settings := mkSettings { format : string; operands : list Z }.

Definition number_of_replicas (s : Settings) : option Z := operands s !! 1%nat.

(** The upstream cluster as the client sees it: its indices with the body
    each was created with, and its number of nodes. *)
Record Cluster := mkCluster { indices : gmap string Settings; nodes : Z }.

(** Which of the three calls to the cluster fail on the way. *)
Record Faults := mkFaults { failExists : bool; failNodes : bool; failCreate : bool }.

Inductive Call :=
| CallIndexExists (name : string)
| CallGetTotalNodes
| CallCreateIndex (name : string) (body : Settings).

Inductive InitError := ErrIndexExists | ErrTotalNodes | ErrCreateIndex (name : string).

Record elasticsearch := mkElasticsearch { indexName : string }.

(** [util.GetClient7().IndexExists(name).Do(ctx)] *)
Definition IndexExists (f : Faults) (name : string) (c : Cluster) : option bool :=
  if failExists f then None else Some (bool_decide (is_Some (indices c !! name))).

(** [util.GetTotalNodes()] *)
Definition GetTotalNodes (f : Faults) (c : Cluster) : option Z :=
  if failNodes f then None else Some (nodes c).

(** [util.GetClient7().CreateIndex(name).Body(settings).Do(ctx)]: the
    cluster refuses a name it already has. *)
Definition CreateIndex (f : Faults) (name : string) (body : Settings) (c : Cluster)
    : option Cluster :=
  if failCreate f || bool_decide (is_Some (indices c !! name)) then None
  else Some (mkCluster (<[name := body]> (indices c)) (nodes c)).

(** [initPlugin]: the result, the cluster afterwards, and the calls made. *)
Definition initPlugin (f : Faults) (indexName config : string) (c : Cluster)
    : (InitError + elasticsearch) * Cluster * Datatypes.list Call :=
  let es := mkElasticsearch indexName in
  match IndexExists f indexName c with
  | None => (inl ErrIndexExists, c, [CallIndexExists indexName])
  | Some true => (inr es, c, [CallIndexExists indexName])
  | Some false =>
      match GetTotalNodes f c with
      | None => (inl ErrTotalNodes, c, [CallIndexExists indexName; CallGetTotalNodes])
      | Some nodes =>
          let settings := mkSettings config [nodes; int_sub nodes 1] in
          let calls := [CallIndexExists indexName; CallGetTotalNodes;
                        CallCreateIndex indexName settings] in
          match CreateIndex f indexName settings c with
          | None => (inl (ErrCreateIndex indexName), c, calls)
          | Some c' => (inr es, c', calls)
          end
      end
  end.

Definition creations (calls : Datatypes.list Call) : Datatypes.list (string * Settings) :=
  omap (fun c => match c with CallCreateIndex n b => Some (n, b) | _ => None end) calls.

(** [es7.NewBulkIndexRequest().Index(..).Type(..).Doc(..)].  The type
    [record] of the package is not among the verified sources; it is the
    parameter [Doc]. *)
Record BulkIndexRequest (Doc : Type) := mkBulkIndexRequest {
  bulk_Index : string;
  bulk_Type : string;
  bulk_Doc : Doc
}.

Arguments mkBulkIndexRequest {Doc}.
Arguments bulk_Index {Doc}.
Arguments bulk_Type {Doc}.
Arguments bulk_Doc {Doc}.

(** [indexRecord]: the request handed to [Bulk().Add(..).Do(ctx)], and
    whether the error line is logged; [bulkFails] says that the call
    returns an error. *)
Definition indexRecord {Doc : Type} (bulkFails : bool) (es : elasticsearch) (rec : Doc)
    : BulkIndexRequest Doc * bool :=
  let bulkIndex := mkBulkIndexRequest (indexName es) "_doc" rec in
  (bulkIndex, bulkFails).

(** The error of [getRawLogs]: [invalid value "<value>" for query param
    "<param>"]. *)
Inductive RawLogsError := InvalidParam (value param : string).

Section GetRawLogs.

(** What the two back ends return ([[]byte, error]), and the back ends:
    [getRawLogsES6] and [getRawLogsES7] are not among the verified sources. *)
Variable Raw : Type.
Variables getRawLogsES6 getRawLogsES7 :
  elasticsearch -> string -> Z -> string -> Z -> Datatypes.list string -> Raw.

(** [getRawLogs]; [version] is what [util.GetVersion()] returns. *)
Definition getRawLogs (version : Z) (es : elasticsearch) (from size filter : string)
    (indices : Datatypes.list string) : RawLogsError + Raw :=
  match strconv.Atoi from with
  | None => inl (InvalidParam from "from")
  | Some offset =>
      match strconv.Atoi size with
      | None => inl (InvalidParam size "size")
      | Some s =>
          if (version =? 6)%Z
          then inr (getRawLogsES6 es from s filter offset indices)
          else inr (getRawLogsES7 es from s filter offset indices)
      end
  end.

End GetRawLogs.

End logs.

(** ** [plugins/elasticsearch]: the plugin's singleton *)

Module elasticsearch.

Definition logTag : string := "[elasticsearch]".

Section Plugin.

(** The type [api] of the package is not among the verified sources. *)
Variable api : Type.

Record elasticsearch := mkElasticsearch { specs : list api }.

(** The package's variables [singleton] and [once], and what has been
    printed to standard output. *)
Record Globals := mkGlobals {
  singleton : option elasticsearch;
  once : bool;
  stdout : list string
}.

(** The program's start: [singleton] is nil and [once] has not run. *)
Definition start : Globals := mkGlobals None false [].

(** [Instance()]: prints, then [once.Do] sets [singleton] if it has not run
    before; the pointer returned is [singleton]. *)
Definition Instance (g : Globals) : Globals :=
  let out := stdout g ++ ["Initializing elasticsearch"] in
  if once g then mkGlobals (singleton g) true out
  else mkGlobals (Some (mkElasticsearch [])) true out.

(** [Name()] *)
Definition Name (es : elasticsearch) : string := logTag.

(** [ESMiddleware()] *)
Definition ESMiddleware (es : elasticsearch) : list Middleware := [].

End Plugin.

End elasticsearch.

(** ** Concrete collaborators and requests, for the examples below *)

Module demo.

Definition q : string := String "034"%char EmptyString.
Definition quoted (s : string) : string := q +:+ s +:+ q.

(** One hit of a search body; [u] is the prefix of its field names. *)
Definition hitJSON (u id : string) : string :=
  "{" +:+ quoted (u +:+ "id") +:+ ":" +:+ quoted id +:+ ","
      +:+ quoted (u +:+ "type") +:+ ":" +:+ quoted "doc" +:+ ","
      +:+ quoted (u +:+ "source") +:+ ":{}}".

(** A search response with two hits, as the backend sends it ([u = "_"])
    and as it reads after the field names are replaced ([u = ""]). *)
Definition searchJSON (u : string) : string :=
  "{" +:+ quoted "took" +:+ ":3," +:+ quoted "hits" +:+ ":{" +:+ quoted "total" +:+ ":2,"
      +:+ quoted "hits" +:+ ":[" +:+ hitJSON u "1" +:+ "," +:+ hitJSON u "2" +:+ "]}}".

Definition msearchJSON (u : string) : string :=
  "{" +:+ quoted "responses" +:+ ":[" +:+ searchJSON u +:+ ",{}]}".

Definition twoHits : searchResponse :=
  mkSearchResponse 3%float 2 [mkSearchHit (Some []) "doc" "1"; mkSearchHit (Some []) "doc" "2"].

(** [encoding/json] on the bodies and sources the examples use. *)
Definition unmarshalSearch (body : string) : option searchResponse :=
  if bool_decide (body = searchJSON "") then Some twoHits
  else if bool_decide (body = "{}") then Some zeroSearchResponse
  else None.

Definition unmarshalMSearch (body : string) : option mSearchResponse :=
  if bool_decide (body = msearchJSON "") then Some (mkMSearchResponse [twoHits; zeroSearchResponse])
  else if bool_decide (body = "{}") then Some (mkMSearchResponse [])
  else None.

Definition marshal (source : option (list (string * JSON))) : option string :=
  match source with
  | None => Some "null"
  | Some [] => Some "{}"
  | Some (_ :: _) => None
  end.

Definition parsePairs (s : string) : gmap string string :=
  if bool_decide (s = "color:red") then {[ "color" := "red" ]} else ∅.

Definition ext : Externals :=
  mkExternals
    (fun msg code w => Write msg (WriteHeader code w))
    unmarshalSearch unmarshalMSearch marshal parsePairs
    (fun _ => "203.0.113.7")
    (fun _ => None)
    (fun _ => Some "AQ").

(** An inner handler that answers with the search body. *)
Definition upstream : Handler :=
  fun w r => (Write (searchJSON "_") (WriteHeader 200 (w_assign "Content-Type" ["application/json"] w)), r).

(** An inner handler that answers with the query header it was handed. *)
Definition echo : Handler :=
  fun w r => (Write (http.Header_Get (r_Header r) analytics.XSearchQuery) w, r).

Definition clientWriter : ResponseWriter := mkWriter [] false 200 [] EmptyString.

Definition request (c : category.Category) (hdr : http.Header) : Request :=
  mkRequest hdr "/twitter/_search" (Some c) (Some ["twitter"]).

(** A follow-up event for the search [abc], and a new search. *)
Definition followUp : Request :=
  request category.Search
    [("X-Search-Id", ["abc"]); ("X-Search-Click", ["true"]); ("X-Search-Click-Position", ["3"])].

Definition newSearch : Request :=
  request category.Search [("X-Search-Query", ["hello%20world"])].

(** A request whose X-Search-Id does not unescape; the [range] over its
    headers visits X-Search-Query first. *)
Definition badEscape : Request :=
  request category.Search [("X-Search-Query", ["a%20b"]); ("X-Search-Id", ["%zz"])].


Definition msearchRequest : Request :=
  mkRequest [("X-Search-Query", ["shoes"])] "/_msearch" (Some category.Search) (Some ["a"; "b"]).

(** The record of the follow-up event [followUp]. *)
Definition followUpRecord : gmap string Value :=
  <["took" := VFloat 3%float]>
    (<["ip" := VString "203.0.113.7"]>
       (<["country" := VString "AQ"]>
          (<["click" := VBool true]>
             (<["click_position" := VInt 3]> ∅)))).

(** The two hits of [twoHits] as they are stored. *)
Definition storedHits : list (gmap string string) :=
  [ {[ "id" := "1"; "type" := "doc"; "source" := "{}" ]};
    {[ "id" := "2"; "type" := "doc"; "source" := "{}" ]} ].

(** The record of the new search [newSearch], built at [now]. *)
Definition now : string := "2019-07-01T10:00:00Z".

Definition newSearchRecord : gmap string Value :=
  <["took" := VFloat 3%float]>
    (<["indices" := VStrings ["twitter"]]>
       (<["search_query" := VString "hello world"]>
          (<["hits_in_response" := VHits storedHits]>
             (<["total_hits" := VInt 2]>
                (<["timestamp" := VString now]>
                   (<["ip" := VString "203.0.113.7"]>
                      (<["country" := VString "AQ"]> ∅))))))).

(** A cluster with no index, no failing call, and a body for the index. *)
Definition cluster (n : Z) : logs.Cluster := logs.mkCluster ∅ n.

Definition noFaults : logs.Faults := logs.mkFaults false false false.

Definition config : string :=
  "{" +:+ quoted "settings" +:+ ":{" +:+ quoted "number_of_shards" +:+ ":%d,"
      +:+ quoted "number_of_replicas" +:+ ":%d}}".

(** A follow-up event whose X-Search-Id is sent escaped. *)
Definition escapedID : Request :=
  request category.Search [("X-Search-Id", ["a+b%2Fc"])].

End demo.

(** ** Names for what the statements below speak of *)

(** The header loop of [recorder] on a request, and the request as the loop
    leaves it. *)
Definition decoded (r : Request) : http.Header * bool :=
  analytics.decodeHeaders (http.Header_keys (r_Header r)) (r_Header r).

Definition decodedRequest (r : Request) : Request := withHeader r (decoded r).1.

(** The recorder records a request when the category is Search, the
    headers unescape, and a query or a search id is there. *)
Definition recording (r : Request) : Prop :=
  r_ctxCategory r = Some category.Search /\
  (decoded r).2 = true /\
  ¬ (http.Header_Get (decoded r).1 analytics.XSearchQuery = "" /\
     http.Header_Get (decoded r).1 analytics.XSearchID = "").

Definition searchID_of (r : Request) : string :=
  http.Header_Get (decoded r).1 analytics.XSearchID.

Definition docID_of (uuid_New : string) (r : Request) : string :=
  if bool_decide (searchID_of r = "") then uuid_New else searchID_of r.

(** The recorder the inner handler has written to, and the task of the
    [go] statement. *)
Definition respRecorder_of (h : Handler) (r : Request) : ResponseWriter :=
  (h NewRecorder (decodedRequest r)).1.

Definition task_of (h : Handler) (uuid_New : string) (r : Request) : Task :=
  mkTask (docID_of uuid_New r) (searchID_of r) (respRecorder_of h r)
         (h NewRecorder (decodedRequest r)).2.

(** The steps that copy the recorded response to the client. *)
Definition clientWrites (resp : ResponseWriter) (docID : string) : list Event :=
  map (fun kv => EvHeaderAssign kv.1 kv.2) (w_Header resp)
  ++ [EvHeaderSet analytics.XSearchID docID; EvWriteHeader (w_Code resp); EvWrite (w_Body resp)].

(** A task step that only logs. *)
Definition logsOnly {A} (m : T A) : Prop := Forall isLog m.1.

(** What holds of the value a task step yields, if it yields one. *)
Definition yields {A} (m : T A) (Q : A -> Prop) : Prop :=
  forall a, m.2 = Some a -> Q a.

(** The fields of a follow-up event, with ip, location and country. *)
Definition followUpFields : gset string :=
  {[ "click"; "click_position"; "conversion"; "custom_events"; "ip"; "location"; "country" ]}.

(** A property of records that adding a follow-up field keeps. *)
Definition keptByFollowUp (P : gmap string Value -> Prop) : Prop :=
  forall k v rec, k ∈ followUpFields -> P rec -> P (<[k := v]> rec).

(** The stored form of a hit, when its source marshals. *)
Definition hitOf (ext : Externals) (x : searchHit) : option (gmap string string) :=
  analytics.mkHit x <$> json_Marshal ext (Source x).

(** A task step that does not return early. *)
Definition completes {A} (m : T A) : Prop := is_Some m.2.

(** [recording], as a test. *)
Definition recordingb (r : Request) : bool :=
  bool_decide (r_ctxCategory r = Some category.Search)
  && (decoded r).2
  && negb (bool_decide (http.Header_Get (decoded r).1 analytics.XSearchQuery = "")
           && bool_decide (http.Header_Get (decoded r).1 analytics.XSearchID = "")).

(** The calls of the inner handler in a trace. *)
Definition served (tr : list Event) : list (Target * Request) :=
  omap (fun e => match e with EvServe t r => Some (t, r) | _ => None end) tr.

(** A header value that has nothing to unescape. *)
Definition plain (s : string) : bool :=
  forallb (fun c => negb (Ascii.eqb c "%") && negb (Ascii.eqb c "+")) (list_ascii_of_string s).

(** The value of a record as [buildRecord] leaves it, step by step.  A
    field that is set only when a lookup or a parse succeeds: *)
Definition optInsert (key : string) (o : option Value) (record : gmap string Value)
    : gmap string Value :=
  match o with
  | Some v => <[key := v]> record
  | None => record
  end.

(** what a header parses to, when it is not empty: *)
Definition parsedHeader {A} (conv : string -> option A) (r : Request) (header : string)
    : option A :=
  let value := http.Header_Get (r_Header r) header in
  if bool_decide (value ≠ "") then conv value else None.

(** a map that is recorded when it is not empty: *)
Definition nonEmpty (m : gmap string string) : option Value :=
  if (0 <? size m)%nat then Some (VStringMap m) else None.

(** the fields of a new search: *)
Definition searchPart (ext : Externals) (now : string) (r : Request)
    (esResponse : searchResponse) (record : gmap string Value) : option (gmap string Value) :=
  ctxIndices ← r_ctxIndices r;
  Some (optInsert "search_filters"
          (nonEmpty (parse ext (http.Header_Get (r_Header r) analytics.XSearchFilters)))
          (<["timestamp" := VString now]>
             (<["total_hits" := VInt (Hits_Total esResponse)]>
                (<["hits_in_response" :=
                     VHits (omap (hitOf ext) (take 10 (Hits_Hits esResponse)))]>
                   (<["search_query" :=
                        VString (http.Header_Get (r_Header r) analytics.XSearchQuery)]>
                      (<["indices" := VStrings ctxIndices]> record)))))).

(** the fields every record gets after those: *)
Definition followUpPart (ext : Externals) (r : Request) (record : gmap string Value)
    : gmap string Value :=
  let ipAddr := iplookup_FromRequest ext r in
  optInsert "custom_events"
    (nonEmpty (parse ext (http.Header_Get (r_Header r) analytics.XSearchCustomEvent)))
    (optInsert "conversion"
       (VBool <$> parsedHeader strconv.ParseBool r analytics.XSearchConversion)
       (optInsert "click_position"
          (VInt <$> parsedHeader strconv.Atoi r analytics.XSearchClickPosition)
          (optInsert "click"
             (VBool <$> parsedHeader strconv.ParseBool r analytics.XSearchClick)
             (optInsert "country" (VString <$> iplookup_GetCountry ext ipAddr)
                (optInsert "location" (VCoordinates <$> iplookup_GetCoordinates ext ipAddr)
                   (<["ip" := VString ipAddr]> record)))))).

(** and the record, if one is built. *)
Definition recordOf (ext : Externals) (now searchID : string) (r : Request)
    (esResponse : searchResponse) : option (gmap string Value) :=
  let record : gmap string Value := <["took" := VFloat (Took esResponse)]> ∅ in
  followUpPart ext r <$>
    (if bool_decide (searchID = "") then searchPart ext now r esResponse record
     else Some record).

(** * Properties *)

Example QueryUnescape_space : url.QueryUnescape "hello%20world" = Some "hello world".
Proof. reflexivity. Qed.

Example QueryUnescape_bad : url.QueryUnescape "%zz" = None.
Proof. reflexivity. Qed.

Example Replace_source :
  GoStrings.Replace "{_source:{a_id:1}}" "_source" "source" = "{source:{a_id:1}}".
Proof. reflexivity. Qed.

Example Atoi_3 : strconv.Atoi "3" = Some 3%Z.
Proof. reflexivity. Qed.

Example replaceFields_demo : analytics.replaceFields (demo.searchJSON "_") = demo.searchJSON "".
Proof. vm_compute. reflexivity. Qed.

(** ** The two monads *)

Lemma M_bind_run {A B} (m : M A) (f : A -> M B) (s : World) :
  (m ≫= f) s = f (m s).1 (m s).2.
Proof. unfold mbind, M_bind. destruct (m s); reflexivity. Qed.

Lemma perform_run e f s :
  perform e f s = (tt, mkWorld (f (client s)) (trace s ++ [e])).
Proof. reflexivity. Qed.

Lemma copyHeader_run src s :
  analytics.copyHeader src s =
  (tt, mkWorld (fold_left (fun w kv => w_assign kv.1 kv.2 w) src (client s))
               (trace s ++ map (fun kv => EvHeaderAssign kv.1 kv.2) src)).
Proof.
  revert s. induction src as [|[k v] src IH]; intros s; simpl.
  - destruct s; simpl. by rewrite app_nil_r.
  - rewrite M_bind_run, perform_run. simpl. rewrite IH. simpl.
    by rewrite <- app_assoc.
Qed.

Lemma T_bind_trace {A B} (m : T A) (f : A -> T B) :
  (m ≫= f).1 = m.1 ++ match m.2 with Some a => (f a).1 | None => [] end.
Proof.
  unfold mbind, T_bind. destruct m as [l [a|]]; simpl.
  - by destruct (f a).
  - by rewrite app_nil_r.
Qed.

Lemma T_bind_value {A B} (m : T A) (f : A -> T B) :
  (m ≫= f).2 = match m.2 with Some a => (f a).2 | None => None end.
Proof.
  unfold mbind, T_bind. destruct m as [l [a|]]; simpl; [|done]. by destruct (f a).
Qed.

Lemma logsOnly_bind {A B} (m : T A) (f : A -> T B) :
  logsOnly m -> (forall a, logsOnly (f a)) -> logsOnly (m ≫= f).
Proof.
  unfold logsOnly. intros Hm Hf. rewrite T_bind_trace. apply Forall_app. split; [done|].
  destruct m.2; [apply Hf | constructor].
Qed.

Lemma logsOnly_ret {A} (a : A) : logsOnly (mret a).
Proof. constructor. Qed.

Lemma logsOnly_stop {A} : logsOnly (@stop A).
Proof. constructor. Qed.

Lemma logsOnly_log (m : LogMsg) : logsOnly (tell (EvLog m)).
Proof. repeat constructor. Qed.

Lemma yields_bind {A B} (m : T A) (f : A -> T B) (Q : A -> Prop) (R : B -> Prop) :
  yields m Q -> (forall a, Q a -> yields (f a) R) -> yields (m ≫= f) R.
Proof.
  unfold yields. intros Hm Hf b. rewrite T_bind_value.
  destruct m.2 as [a|] eqn:E; [|done]. intros Hb. by eapply Hf; [apply Hm|].
Qed.

Lemma yields_ret {A} (a : A) (Q : A -> Prop) : Q a -> yields (mret a) Q.
Proof. intros H b [= <-]. exact H. Qed.

Lemma yields_stop {A} (Q : A -> Prop) : yields (@stop A) Q.
Proof. intros b [=]. Qed.

Lemma storeCalls_logs (l : list Event) : Forall isLog l -> storeCalls l = [].
Proof.
  induction 1 as [|e l He _ IH]; [done|]. unfold storeCalls in *. simpl.
  destruct e; simpl in *; try done.
Qed.

Lemma storeCalls_app (l1 l2 : list Event) :
  storeCalls (l1 ++ l2) = storeCalls l1 ++ storeCalls l2.
Proof. apply omap_app. Qed.

Ltac logs_only :=
  repeat first
    [ apply logsOnly_ret | apply logsOnly_stop | apply logsOnly_log
    | apply logsOnly_bind; [|intros]
    | case_match ].

Lemma hitsLoop_step ext n x hs :
  analytics.hitsLoop ext (S n) (x :: hs) =
  match json_Marshal ext (Source x) with
  | None => tell (EvLog LogMarshalSource) ;; analytics.hitsLoop ext n hs
  | Some raw => hits ← analytics.hitsLoop ext n hs; mret (analytics.mkHit x raw :: hits)
  end.
Proof. reflexivity. Qed.

Lemma hitsLoop_logsOnly ext n hs : logsOnly (analytics.hitsLoop ext n hs).
Proof.
  revert hs. induction n as [|n IH]; intros [|x hs]; try apply logsOnly_ret.
  rewrite hitsLoop_step. destruct (json_Marshal ext (Source x)).
  - apply logsOnly_bind; [apply IH | intros; apply logsOnly_ret].
  - apply logsOnly_bind; [apply logsOnly_log | intros; apply IH].
Qed.

Lemma hitsLoop_value ext n hs :
  (analytics.hitsLoop ext n hs).2 = Some (omap (hitOf ext) (take n hs)).
Proof.
  revert hs. induction n as [|n IH]; intros [|x hs]; try reflexivity.
  rewrite hitsLoop_step.
  change (omap (hitOf ext) (take (S n) (x :: hs)))
    with (match hitOf ext x with
          | Some hit => hit :: omap (hitOf ext) (take n hs)
          | None => omap (hitOf ext) (take n hs)
          end).
  unfold hitOf at 1.
  destruct (json_Marshal ext (Source x)) as [raw|]; rewrite T_bind_value.
  - by rewrite IH.
  - apply IH.
Qed.

Lemma buildRecord_logsOnly ext now searchID r esResponse :
  logsOnly (analytics.buildRecord ext now searchID r esResponse).
Proof.
  unfold analytics.buildRecord, analytics.searchFields, analytics.parsedField.
  apply logsOnly_bind; [apply hitsLoop_logsOnly | intros hits].
  logs_only.
Qed.

Lemma decodeResponse_logsOnly ext uri body :
  logsOnly (analytics.decodeResponse ext uri body).
Proof. unfold analytics.decodeResponse. logs_only. Qed.

(** The store is called at most once by a task, and only with the record
    built from the decoded response. *)
Lemma storeCalls_recordDecoded ext now docID searchID r esResponse :
  storeCalls (analytics.recordDecoded ext now docID searchID r esResponse).1 =
  match (analytics.buildRecord ext now searchID r esResponse).2 with
  | Some rec => [(docID, rec)]
  | None => []
  end.
Proof.
  unfold analytics.recordDecoded. rewrite T_bind_trace, storeCalls_app.
  rewrite (storeCalls_logs _ (buildRecord_logsOnly ext now searchID r esResponse)).
  by destruct (analytics.buildRecord _ _ _ _ _).2.
Qed.

Lemma storeCalls_recordResponse ext now docID searchID w r :
  storeCalls (analytics.recordResponse ext now docID searchID w r).1 =
  match (analytics.decodeResponse ext (r_RequestURI r) (analytics.replaceFields (w_Body w))).2 with
  | Some esResponse =>
      match (analytics.buildRecord ext now searchID r esResponse).2 with
      | Some rec => [(docID, rec)]
      | None => []
      end
  | None => []
  end.
Proof.
  unfold analytics.recordResponse. rewrite T_bind_trace, storeCalls_app.
  rewrite (storeCalls_logs _ (decodeResponse_logsOnly ext _ _)). simpl.
  destruct (analytics.decodeResponse _ _ _).2; [|done].
  apply storeCalls_recordDecoded.
Qed.

(** ** Headers and writers *)

Lemma Header_values_assign_eq h k vs :
  http.Header_values (http.Header_assign h k vs) k = Some vs.
Proof.
  induction h as [|[k' vs'] h IH]; simpl.
  - by rewrite String.eqb_refl.
  - destruct (String.eqb k k') eqn:E; simpl; rewrite ?String.eqb_refl, ?E; done.
Qed.

Lemma Header_values_assign_ne h k k' vs :
  k ≠ k' -> http.Header_values (http.Header_assign h k vs) k' = http.Header_values h k'.
Proof.
  intros Hne. induction h as [|[k0 vs0] h IH]; simpl.
  - destruct (String.eqb k' k) eqn:E; [|done]. apply String.eqb_eq in E. congruence.
  - destruct (String.eqb k k0) eqn:E; simpl.
    + apply String.eqb_eq in E. subst k0.
      destruct (String.eqb k' k) eqn:E'; [|done]. apply String.eqb_eq in E'. congruence.
    + by rewrite IH.
Qed.

Lemma Header_Get_assign_eq h k v : http.Header_Get (http.Header_assign h k [v]) k = v.
Proof. unfold http.Header_Get. by rewrite Header_values_assign_eq. Qed.

Lemma Header_Get_assign_ne h k k' vs :
  k ≠ k' -> http.Header_Get (http.Header_assign h k vs) k' = http.Header_Get h k'.
Proof. intros Hne. unfold http.Header_Get. by rewrite Header_values_assign_ne. Qed.

Lemma copy_wroteHeader src w :
  w_wroteHeader (fold_left (fun w kv => w_assign kv.1 kv.2 w) src w) = w_wroteHeader w.
Proof. revert w. induction src as [|kv src IH]; intros w; simpl; [done|]. by rewrite IH. Qed.

Lemma copy_Body src w :
  w_Body (fold_left (fun w kv => w_assign kv.1 kv.2 w) src w) = w_Body w.
Proof. revert w. induction src as [|kv src IH]; intros w; simpl; [done|]. by rewrite IH. Qed.

Lemma replay_app ext h tr1 tr2 w :
  replay ext h (tr1 ++ tr2) w = replay ext h tr2 (replay ext h tr1 w).
Proof. apply fold_left_app. Qed.

Lemma replay_copy ext h src w :
  replay ext h (map (fun kv => EvHeaderAssign kv.1 kv.2) src) w =
  fold_left (fun w kv => w_assign kv.1 kv.2 w) src w.
Proof. revert w. induction src as [|kv src IH]; intros w; simpl; [done|]. apply IH. Qed.

Lemma replay_clientWrites ext h resp docID w :
  replay ext h (clientWrites resp docID) w =
  Write (w_Body resp)
    (WriteHeader (w_Code resp)
       (w_assign analytics.XSearchID [docID]
          (fold_left (fun w kv => w_assign kv.1 kv.2 w) (w_Header resp) w))).
Proof. unfold clientWrites. rewrite replay_app, replay_copy. reflexivity. Qed.

(** ** The recorder *)

(** C1: with a category other than Search in the context, or with both
    X-Search-Query and X-Search-Id empty once the headers are unescaped, the
    recorder calls the inner handler on the client's own writer and does
    nothing else to it: the writer ends as the inner handler leaves it, the
    trace holds that one call (after the log line of a failed unescape, when
    the category is not Search), and no header is added, nothing is buffered
    and no task is started. *)
Theorem recorder_pass_through ext h uuid_New w r c :
  r_ctxCategory r = Some c ->
  (c ≠ category.Search \/
   ((decoded r).2 = true /\
    http.Header_Get (decoded r).1 analytics.XSearchQuery = "" /\
    http.Header_Get (decoded r).1 analytics.XSearchID = "")) ->
  run (analytics.recorder ext h uuid_New r) w =
  mkWorld (h w (decodedRequest r)).1
          ((if (decoded r).2 then [] else [EvLog LogHeaderDecode])
           ++ [EvServe OnClient (decodedRequest r)]).
Proof.
  intros Hc Hpass. unfold run, analytics.recorder, decodedRequest, decoded in *.
  rewrite Hc. destruct (analytics.decodeHeaders _ _) as [hdr ok]. simpl in *.
  destruct ok; simpl.
  - assert (bool_decide (c ≠ category.Search)
            || bool_decide (http.Header_Get hdr analytics.XSearchQuery = "")
               && bool_decide (http.Header_Get hdr analytics.XSearchID = "") = true) as ->.
    { destruct Hpass as [Hne | (_ & Hq & Hi)].
      - by rewrite (bool_decide_eq_true_2 _ Hne).
      - rewrite (bool_decide_eq_true_2 _ Hq), (bool_decide_eq_true_2 _ Hi).
        apply orb_true_r. }
    reflexivity.
  - reflexivity.
Qed.

Lemma recorder_pass_through_witness :
  (let r := demo.request category.Docs [("X-Search-Query", ["hello%20world"])] in
   run (analytics.recorder demo.ext demo.echo "uuid" r) demo.clientWriter =
   mkWorld (mkWriter [] true 200 [] "hello world")
           [EvServe OnClient (demo.request category.Docs [("X-Search-Query", ["hello world"])])]) /\
  (let r := demo.request category.Search [("Accept", ["*/*"])] in
   run (analytics.recorder demo.ext demo.upstream "uuid" r) demo.clientWriter =
   mkWorld (demo.upstream demo.clientWriter r).1 [EvServe OnClient r]).
Proof.
  split; intros r.
  - rewrite (recorder_pass_through demo.ext demo.echo "uuid" demo.clientWriter r category.Docs);
      [vm_compute; reflexivity | reflexivity | left; discriminate].
  - rewrite (recorder_pass_through demo.ext demo.upstream "uuid" demo.clientWriter r
               category.Search);
      [vm_compute; reflexivity | reflexivity | right; repeat split; reflexivity].
Defined.

(** The run of a recorded request, step by step: the inner handler is
    served into the recorder, the response is copied to the client, and the
    task is started. *)
Lemma recorder_recording ext h uuid_New w r :
  recording r ->
  run (analytics.recorder ext h uuid_New r) w =
  mkWorld (replay ext h (clientWrites (respRecorder_of h r) (docID_of uuid_New r)) w)
          (EvServe OnRecorder (decodedRequest r)
           :: clientWrites (respRecorder_of h r) (docID_of uuid_New r)
           ++ [EvGo (task_of h uuid_New r)]).
Proof.
  intros (Hc & Hok & Hne). rewrite replay_clientWrites.
  unfold run, analytics.recorder, task_of, respRecorder_of, docID_of, searchID_of,
    decodedRequest, clientWrites, decoded in *.
  rewrite Hc. destruct (analytics.decodeHeaders _ _) as [hdr ok]. simpl in *. subst ok.
  assert (bool_decide (http.Header_Get hdr analytics.XSearchQuery = "")
          && bool_decide (http.Header_Get hdr analytics.XSearchID = "") = false) as ->.
  { apply andb_false_iff. rewrite !bool_decide_eq_false.
    destruct (decide (http.Header_Get hdr analytics.XSearchQuery = "")); [right|left]; tauto. }
  destruct (h NewRecorder _) as [resp r2]. simpl.
  rewrite !M_bind_run, copyHeader_run. simpl. by rewrite <- !app_assoc.
Qed.

Lemma completes_bind {A B} (m : T A) (f : A -> T B) :
  completes m -> (forall a, completes (f a)) -> completes (m ≫= f).
Proof.
  unfold completes. intros [a Ha] Hf. rewrite T_bind_value, Ha. apply Hf.
Qed.

Lemma completes_ret {A} (a : A) : completes (mret a).
Proof. by eexists. Qed.

Lemma completes_tell (e : Event) : completes (tell e).
Proof. by eexists. Qed.

Ltac completes_step :=
  repeat first
    [ apply completes_ret | apply completes_tell
    | apply completes_bind; [|intros] ].

Lemma parsedField_completes {A} (conv : string -> option A) inj bad r header key record :
  completes (analytics.parsedField conv inj bad r header key record).
Proof.
  unfold analytics.parsedField.
  destruct (bool_decide _); [|completes_step]. destruct (conv _); completes_step.
Qed.

(** The record is built, and the store called, for every follow-up event
    and for every new search whose request has its indices in the context. *)
Lemma buildRecord_completes ext now searchID r esResponse :
  searchID ≠ "" \/ is_Some (r_ctxIndices r) ->
  completes (analytics.buildRecord ext now searchID r esResponse).
Proof.
  intros Hcase. unfold analytics.buildRecord.
  apply completes_bind; [unfold completes; rewrite hitsLoop_value; eauto | intros hits].
  apply completes_bind.
  { destruct (bool_decide (searchID = "")) eqn:E; [|completes_step].
    apply bool_decide_eq_true in E. destruct Hcase as [Hne | [idx Hidx]]; [done|].
    unfold analytics.searchFields. rewrite Hidx. completes_step. }
  intros rec0.
  apply completes_bind; [destruct (iplookup_GetCoordinates ext _); completes_step | intros rec1].
  apply completes_bind; [destruct (iplookup_GetCountry ext _); completes_step | intros rec2].
  apply completes_bind; [by apply parsedField_completes | intros rec3].
  apply completes_bind; [by apply parsedField_completes | intros rec4].
  apply completes_bind; [by apply parsedField_completes | intros rec5].
  completes_step.
Qed.

Lemma spawned_clientWrites resp docID : spawned (clientWrites resp docID) = [].
Proof.
  unfold clientWrites, spawned. rewrite omap_app. simpl. rewrite app_nil_r.
  induction (w_Header resp) as [|kv l IH]; [done|]. exact IH.
Qed.

Lemma storeCalls_clientWrites resp docID : storeCalls (clientWrites resp docID) = [].
Proof.
  unfold clientWrites, storeCalls. rewrite omap_app. simpl. rewrite app_nil_r.
  induction (w_Header resp) as [|kv l IH]; [done|]. exact IH.
Qed.

(** The writer once the recorded response has been copied to it. *)
Lemma copied_Header resp docID w :
  http.Header_Get
    (w_Header (Write (w_Body resp) (WriteHeader (w_Code resp)
       (w_assign analytics.XSearchID [docID]
          (fold_left (fun w kv => w_assign kv.1 kv.2 w) (w_Header resp) w)))))
    analytics.XSearchID = docID.
Proof.
  unfold Write, WriteHeader. simpl.
  repeat (case_match; simpl); apply Header_Get_assign_eq.
Qed.

Lemma copied_Body resp docID w :
  w_Body (Write (w_Body resp) (WriteHeader (w_Code resp)
       (w_assign analytics.XSearchID [docID]
          (fold_left (fun w kv => w_assign kv.1 kv.2 w) (w_Header resp) w))))
  = w_Body w +:+ w_Body resp.
Proof.
  unfold Write, WriteHeader. simpl.
  repeat (case_match; simpl); by rewrite copy_Body.
Qed.

Lemma copied_sent resp docID w :
  w_wroteHeader w = false ->
  let w' := Write (w_Body resp) (WriteHeader (w_Code resp)
       (w_assign analytics.XSearchID [docID]
          (fold_left (fun w kv => w_assign kv.1 kv.2 w) (w_Header resp) w))) in
  w_wroteHeader w' = true /\ w_Code w' = w_Code resp /\ w_snapHeader w' = w_Header w'.
Proof.
  intros Hw. unfold Write, WriteHeader. simpl. rewrite copy_wroteHeader, Hw. simpl. done.
Qed.

(** C6: for a recorded request the trace of the worker is the call of the
    inner handler on the recorder, then the copy of the recorded headers,
    X-Search-Id, the status and the body to the client's writer, and last
    the [go] statement.  The writer is complete when the task is started
    (it is what the steps before the [go] leave), and no task was started
    and no record was handed to the store before. *)
Theorem client_write_before_task ext h uuid_New w r :
  recording r ->
  let s := run (analytics.recorder ext h uuid_New r) w in
  let resp := respRecorder_of h r in
  let docID := docID_of uuid_New r in
  let pre := EvServe OnRecorder (decodedRequest r) :: clientWrites resp docID in
  trace s = pre ++ [EvGo (task_of h uuid_New r)] /\
  spawned pre = [] /\
  storeCalls pre = [] /\
  client s = replay ext h pre w /\
  w_Body (client s) = w_Body w +:+ w_Body resp /\
  http.Header_Get (w_Header (client s)) analytics.XSearchID = docID /\
  (w_wroteHeader w = false ->
   w_wroteHeader (client s) = true /\
   w_Code (client s) = w_Code resp /\
   w_snapHeader (client s) = w_Header (client s)).
Proof.
  intros Hrec s resp docID pre. subst s pre.
  rewrite (recorder_recording _ _ _ _ _ Hrec). fold resp docID. cbn [client trace].
  split; [reflexivity|]. split; [apply spawned_clientWrites|].
  split; [apply storeCalls_clientWrites|]. split; [reflexivity|].
  rewrite replay_clientWrites.
  split; [apply copied_Body|]. split; [apply copied_Header|].
  intros Hw. by apply copied_sent.
Qed.

Lemma client_write_before_task_witness :
  recording demo.newSearch /\
  trace (run (analytics.recorder demo.ext demo.upstream "uuid" demo.newSearch) demo.clientWriter)
  = [ EvServe OnRecorder
        (demo.request category.Search [("X-Search-Query", ["hello world"])]);
      EvHeaderAssign "Content-Type" ["application/json"];
      EvHeaderSet "X-Search-Id" "uuid";
      EvWriteHeader 200;
      EvWrite (demo.searchJSON "_");
      EvGo (task_of demo.upstream "uuid" demo.newSearch) ].
Proof.
  assert (Hrec : recording demo.newSearch).
  { split; [reflexivity|]. split; [vm_compute; reflexivity|].
    intros [H _]; vm_compute in H; discriminate. }
  pose proof (client_write_before_task demo.ext demo.upstream "uuid" demo.clientWriter
                demo.newSearch Hrec) as H.
  cbv zeta in H. destruct H as (H1 & _).
  split; [exact Hrec|]. rewrite H1. vm_compute. reflexivity.
Defined.

(** ** The header loop *)

Lemma decode_fails keys : forall hdr k,
  k ∈ keys ->
  GoStrings.HasPrefix k "X-Search-" = true ->
  url.QueryUnescape (http.Header_Get hdr k) = None ->
  (analytics.decodeHeaders keys hdr).2 = false.
Proof.
  induction keys as [|header keys IH]; intros hdr k Hin Hp Hu.
  - by apply elem_of_nil in Hin.
  - simpl. apply elem_of_cons in Hin as [<-|Hin].
    + by rewrite Hp, Hu.
    + destruct (GoStrings.HasPrefix header _) eqn:Hph; [|by eapply IH].
      destruct (url.QueryUnescape (http.Header_Get hdr header)) as [v|] eqn:Hv; [|done].
      eapply IH; [done..|]. unfold http.Header_Set.
      rewrite Header_Get_assign_ne; [done|]. intros ->. congruence.
Qed.

Lemma Header_keys_assign h k vs :
  k ∈ http.Header_keys h -> http.Header_keys (http.Header_assign h k vs) = http.Header_keys h.
Proof.
  unfold http.Header_keys. induction h as [|[k' vs'] h IH]; simpl; intros Hin.
  - by apply elem_of_nil in Hin.
  - destruct (String.eqb k k') eqn:E; simpl.
    + apply String.eqb_eq in E. by subst.
    + apply elem_of_cons in Hin as [->|Hin]; [by rewrite String.eqb_refl in E|].
      f_equal. exact (IH Hin).
Qed.

Lemma decode_keys keys : forall hdr,
  (forall k, k ∈ keys -> k ∈ http.Header_keys hdr) ->
  http.Header_keys (analytics.decodeHeaders keys hdr).1 = http.Header_keys hdr.
Proof.
  induction keys as [|header keys IH]; intros hdr Hsub; simpl; [done|].
  assert (forall k, k ∈ keys -> k ∈ http.Header_keys hdr) as Hsub'.
  { intros k Hk. apply Hsub. by apply elem_of_cons; right. }
  destruct (GoStrings.HasPrefix header _); [|by apply IH].
  destruct (url.QueryUnescape _) as [v|]; [|done].
  assert (http.Header_keys (http.Header_Set hdr header v) = http.Header_keys hdr) as Hk.
  { apply Header_keys_assign, Hsub. by apply elem_of_cons; left. }
  rewrite IH; [done|]. intros k Hin. rewrite Hk. by apply Hsub'.
Qed.

(** When the loop is left, a header holds what was received, or, if it was
    visited, the one value its first value unescapes to. *)
Lemma decode_values keys : forall hdr k,
  NoDup keys ->
  http.Header_values (analytics.decodeHeaders keys hdr).1 k = http.Header_values hdr k \/
  (k ∈ keys /\ GoStrings.HasPrefix k "X-Search-" = true /\
   exists v, url.QueryUnescape (http.Header_Get hdr k) = Some v /\
             http.Header_values (analytics.decodeHeaders keys hdr).1 k = Some [v]).
Proof.
  induction keys as [|header keys IH]; intros hdr k Hnd; simpl; [by left|].
  apply NoDup_cons in Hnd as [Hnotin Hnd].
  destruct (GoStrings.HasPrefix header _) eqn:Hph.
  - destruct (url.QueryUnescape (http.Header_Get hdr header)) as [v|] eqn:Hv; [|by left].
    destruct (decide (header = k)) as [->|Hne].
    + right. split; [by apply elem_of_cons; left|]. split; [done|]. exists v. split; [done|].
      destruct (IH (http.Header_Set hdr k v) k Hnd) as [-> | (Hin & _)]; [|done].
      apply Header_values_assign_eq.
    + destruct (IH (http.Header_Set hdr header v) k Hnd) as [-> | (Hin & Hp & v' & Hv' & Hval)].
      * left. by apply Header_values_assign_ne.
      * right. split; [by apply elem_of_cons; right|]. split; [done|]. exists v'.
        split; [|done]. unfold http.Header_Set in Hv'.
        by rewrite Header_Get_assign_ne in Hv'.
  - destruct (IH hdr k Hnd) as [-> | (Hin & Hp & v' & Hv' & Hval)]; [by left|].
    right. split; [by apply elem_of_cons; right|]. eauto.
Qed.

(** C10 as stated fails: the failing header is there, and the inner handler
    is called with X-Search-Query already unescaped, not as received. *)
Lemma unescape_failure_headers_not_as_received :
  url.QueryUnescape (http.Header_Get (r_Header demo.badEscape) "X-Search-Id") = None /\
  trace (run (analytics.recorder demo.ext demo.echo "uuid" demo.badEscape) demo.clientWriter) =
    [EvLog LogHeaderDecode;
     EvServe OnClient
       (demo.request category.Search [("X-Search-Query", ["a b"]); ("X-Search-Id", ["%zz"])])] /\
  demo.request category.Search [("X-Search-Query", ["a b"]); ("X-Search-Id", ["%zz"])]
    ≠ demo.badEscape /\
  http.Header_Get (r_Header demo.badEscape) "X-Search-Query" = "a%20b" /\
  w_Body (client (run (analytics.recorder demo.ext demo.echo "uuid" demo.badEscape)
                      demo.clientWriter)) = "a b".
Proof.
  split; [reflexivity|]. split; [vm_compute; reflexivity|].
  split; [discriminate|]. split; reflexivity.
Qed.

(** ** The record of a task *)

Lemma yields_log {A} (m : LogMsg) (k : T A) (Q : A -> Prop) :
  yields k Q -> yields (tell (EvLog m) ;; k) Q.
Proof. intros Hk. eapply yields_bind with (Q := fun _ => True); [done|]. by intros. Qed.

Lemma parsedField_yields {A} (conv : string -> option A) inj bad r header key record P :
  keptByFollowUp P -> key ∈ followUpFields -> P record ->
  yields (analytics.parsedField conv inj bad r header key record) P.
Proof.
  intros HP Hkey Hrec. unfold analytics.parsedField.
  destruct (bool_decide _); [|by apply yields_ret].
  destruct (conv _); [|apply yields_log]; apply yields_ret; auto.
Qed.

(** Whatever holds of the record after the fields of the search, and is
    kept when a follow-up field is added, holds of the record built. *)
Lemma buildRecord_yields ext now searchID r esResponse P :
  keptByFollowUp P ->
  yields (if bool_decide (searchID = "")
          then analytics.searchFields ext now r esResponse
                 (omap (hitOf ext) (take 10 (Hits_Hits esResponse)))
                 (<["took" := VFloat (Took esResponse)]> ∅)
          else mret (<["took" := VFloat (Took esResponse)]> ∅)) P ->
  yields (analytics.buildRecord ext now searchID r esResponse) P.
Proof.
  intros HP Hfirst. unfold analytics.buildRecord.
  eapply yields_bind with (Q := fun hits => hits = omap (hitOf ext) (take 10 (Hits_Hits esResponse))).
  { intros hits Hh. rewrite hitsLoop_value in Hh. congruence. }
  intros hits ->.
  eapply yields_bind; [exact Hfirst|]. intros rec0 H0. cbv beta.
  assert (P (<["ip" := VString (iplookup_FromRequest ext r)]> rec0)) as H1.
  { apply HP; [|done]. unfold followUpFields. set_solver. }
  eapply yields_bind with (Q := P).
  { destruct (iplookup_GetCoordinates ext _); [|apply yields_log]; apply yields_ret; [|done].
    apply HP; [|done]. unfold followUpFields. set_solver. }
  intros rec2 H2.
  eapply yields_bind with (Q := P).
  { destruct (iplookup_GetCountry ext _); [|apply yields_log]; apply yields_ret; [|done].
    apply HP; [|done]. unfold followUpFields. set_solver. }
  intros rec3 H3.
  eapply yields_bind with (Q := P).
  { apply parsedField_yields; [done| |done]. unfold followUpFields. set_solver. }
  intros rec4 H4.
  eapply yields_bind with (Q := P).
  { apply parsedField_yields; [done| |done]. unfold followUpFields. set_solver. }
  intros rec5 H5.
  eapply yields_bind with (Q := P).
  { apply parsedField_yields; [done| |done]. unfold followUpFields. set_solver. }
  intros rec6 H6.
  apply yields_ret. destruct (0 <? size _)%nat; [|done].
  apply HP; [|done]. unfold followUpFields. set_solver.
Qed.

(** A record the store receives is a record [buildRecord] yields. *)
Lemma stored_record ext now docID searchID w r id rec :
  (id, rec) ∈ storeCalls (analytics.recordResponse ext now docID searchID w r).1 ->
  id = docID /\
  exists esResponse,
    (analytics.decodeResponse ext (r_RequestURI r) (analytics.replaceFields (w_Body w))).2
      = Some esResponse /\
    (analytics.buildRecord ext now searchID r esResponse).2 = Some rec.
Proof.
  rewrite storeCalls_recordResponse.
  destruct (analytics.decodeResponse _ _ _).2 as [esResponse|]; [|by intros ?%elem_of_nil].
  destruct (analytics.buildRecord _ _ _ _ _).2 as [rec'|] eqn:E; [|by intros ?%elem_of_nil].
  intros [= -> ->]%list_elem_of_singleton. eauto.
Qed.

Lemma followUpFields_kept_dom :
  keptByFollowUp (fun rec => dom rec ⊆ {["took"]} ∪ followUpFields /\ "took" ∈ dom rec).
Proof.
  intros k v rec Hk [Hsub Htook]. rewrite dom_insert_L. split; set_solver.
Qed.

Lemma not_followUp_field (k : string) (rec : gmap string Value) :
  bool_decide (k ∈ ({["took"]} ∪ followUpFields : gset string)) = false ->
  dom rec ⊆ {["took"]} ∪ followUpFields ->
  rec !! k = None.
Proof.
  intros Hk Hsub. apply not_elem_of_dom. intros Hin.
  apply bool_decide_eq_false in Hk. apply Hk, Hsub, Hin.
Qed.

(** C3, as the code has it: the record of a follow-up event (X-Search-Id
    non-empty) is stored under the doc id, has none of the fields indices,
    search_query, hits_in_response, total_hits, timestamp and search_filters,
    and its fields are among took, click, click_position, conversion,
    custom_events, ip, location and country; took is always among them. *)
Theorem followUp_record_fields ext now docID searchID w r id rec :
  searchID ≠ "" ->
  (id, rec) ∈ storeCalls (analytics.recordResponse ext now docID searchID w r).1 ->
  id = docID /\
  dom rec ⊆ {["took"]} ∪ followUpFields /\
  "took" ∈ dom rec /\
  rec !! "indices" = None /\
  rec !! "search_query" = None /\
  rec !! "hits_in_response" = None /\
  rec !! "total_hits" = None /\
  rec !! "timestamp" = None /\
  rec !! "search_filters" = None.
Proof.
  intros Hid (-> & esResponse & _ & Hrec)%stored_record.
  assert (dom rec ⊆ {["took"]} ∪ followUpFields /\ "took" ∈ dom rec) as [Hsub Htook].
  { revert rec Hrec. apply buildRecord_yields; [apply followUpFields_kept_dom|].
    rewrite bool_decide_eq_false_2 by done. apply yields_ret.
    rewrite dom_insert_L. split; set_solver. }
  split; [done|]. split; [done|]. split; [done|].
  repeat split; (apply not_followUp_field; [vm_compute; reflexivity | done]).
Qed.

Lemma followUp_record_fields_witness :
  ("abc", demo.followUpRecord)
    ∈ storeCalls (analytics.recordResponse demo.ext demo.now "abc" "abc"
                    (respRecorder_of demo.upstream demo.followUp) demo.followUp).1 /\
  demo.followUpRecord !! "hits_in_response" = None /\
  "took" ∈ dom demo.followUpRecord.
Proof.
  assert (("abc", demo.followUpRecord)
    ∈ storeCalls (analytics.recordResponse demo.ext demo.now "abc" "abc"
                    (respRecorder_of demo.upstream demo.followUp) demo.followUp).1) as Hin.
  { assert (storeCalls (analytics.recordResponse demo.ext demo.now "abc" "abc"
                    (respRecorder_of demo.upstream demo.followUp) demo.followUp).1
            = [("abc", demo.followUpRecord)]) as -> by (vm_compute; reflexivity).
    constructor. }
  split; [exact Hin|].
  destruct (followUp_record_fields demo.ext demo.now "abc" "abc"
              (respRecorder_of demo.upstream demo.followUp) demo.followUp
              "abc" demo.followUpRecord) as (_ & _ & Htook & _ & _ & Hhits & _).
  - discriminate.
  - exact Hin.
  - split; [exact Hhits | exact Htook].
Defined.

(** C3 as stated fails: the record of the follow-up event [abc] holds took,
    which is not one of click, click_position, conversion, custom_events,
    ip, location and country. *)
Lemma followUp_records_took :
  taskSearchID (task_of demo.upstream "uuid" demo.followUp) = "abc" /\
  storeCalls (analytics.runTask demo.ext demo.now
                (task_of demo.upstream "uuid" demo.followUp))
    = [("abc", demo.followUpRecord)] /\
  demo.followUpRecord !! "took" = Some (VFloat 3%float) /\
  ¬ (dom demo.followUpRecord ⊆ followUpFields).
Proof.
  split; [reflexivity|]. split; [vm_compute; reflexivity|]. split; [reflexivity|].
  intros Hsub. assert ("took" ∈ followUpFields) as Hin.
  { apply Hsub. apply elem_of_dom. by eexists. }
  revert Hin. apply (bool_decide_eq_false_1 _). vm_compute. reflexivity.
Qed.

(** ** The hits of a record *)

Lemma hitOf_Some ext x hit :
  hitOf ext x = Some hit ->
  exists raw, json_Marshal ext (Source x) = Some raw /\
    dom hit = {[ "id"; "type"; "source" ]} /\
    hit !! "id" = Some (ID x) /\ hit !! "type" = Some (Type_ x) /\ hit !! "source" = Some raw /\
    hit !! "_id" = None /\ hit !! "_type" = None /\ hit !! "_source" = None.
Proof.
  unfold hitOf. destruct (json_Marshal ext (Source x)) as [raw|]; [|done].
  intros [= <-]. exists raw. split; [done|]. unfold analytics.mkHit.
  split; [rewrite !dom_insert_L; set_solver|].
  repeat split; by simplify_map_eq.
Qed.

Lemma omap_length_le {A B} (f : A -> option B) (l : list A) :
  length (omap f l) <= length l.
Proof.
  induction l as [|x l IH]; [done|].
  change (omap f (x :: l)) with (match f x with Some y => y :: omap f l | None => omap f l end).
  destruct (f x); simpl; lia.
Qed.

Lemma hits_length ext (hs : list searchHit) :
  length (omap (hitOf ext) (take 10 hs)) <= 10.
Proof.
  etrans; [apply omap_length_le|]. rewrite length_take. lia.
Qed.

Lemma searchFields_hits ext now r esResponse hits record :
  yields (analytics.searchFields ext now r esResponse hits record)
         (fun rec => rec !! "hits_in_response" = Some (VHits hits)).
Proof.
  unfold analytics.searchFields. destruct (r_ctxIndices r); [|apply yields_log, yields_stop].
  apply yields_ret. destruct (0 <? size _)%nat; by simplify_map_eq.
Qed.

(** C4: a record the store receives holds hits only under hits_in_response,
    in the record of a new search.  They are the first ten hits of the
    response decoded from the body with its field names replaced, less
    those whose source does not marshal, in order; so at most ten.  Each is
    a map with exactly the keys id, type and source, holding the hit's id,
    its type and its marshalled source, and none of _id, _type, _source. *)
Theorem stored_hits ext now docID searchID w r id rec :
  (id, rec) ∈ storeCalls (analytics.recordResponse ext now docID searchID w r).1 ->
  exists esResponse,
    (analytics.decodeResponse ext (r_RequestURI r) (analytics.replaceFields (w_Body w))).2
      = Some esResponse /\
    rec !! "hits_in_response" =
      (if bool_decide (searchID = "")
       then Some (VHits (omap (hitOf ext) (take 10 (Hits_Hits esResponse))))
       else None) /\
    length (omap (hitOf ext) (take 10 (Hits_Hits esResponse))) <= 10 /\
    Forall (fun hit =>
              dom hit = {[ "id"; "type"; "source" ]} /\
              hit !! "_id" = None /\ hit !! "_type" = None /\ hit !! "_source" = None /\
              exists x raw,
                x ∈ take 10 (Hits_Hits esResponse) /\
                json_Marshal ext (Source x) = Some raw /\
                hit !! "id" = Some (ID x) /\
                hit !! "type" = Some (Type_ x) /\
                hit !! "source" = Some raw)
           (omap (hitOf ext) (take 10 (Hits_Hits esResponse))).
Proof.
  intros (_ & esResponse & Hdec & Hrec)%stored_record.
  exists esResponse. split; [done|]. split; [|split; [apply hits_length|]].
  - revert rec Hrec. apply buildRecord_yields.
    + intros k v rec' Hk Hrec'. rewrite lookup_insert_ne; [done|].
      intros ->. revert Hk. apply (bool_decide_eq_false_1 _). vm_compute. reflexivity.
    + destruct (bool_decide (searchID = "")); [apply searchFields_hits|].
      apply yields_ret. by simplify_map_eq.
  - apply Forall_forall. intros hit (x & Hx & Hhit)%list_elem_of_omap.
    apply hitOf_Some in Hhit as (raw & Hraw & Hdom & Hi & Ht & Hs & Hi' & Ht' & Hs').
    repeat split; try done. exists x, raw. done.
Qed.

Lemma stored_hits_witness :
  ("uuid", demo.newSearchRecord)
    ∈ storeCalls (analytics.recordResponse demo.ext demo.now "uuid" ""
                    (respRecorder_of demo.upstream demo.newSearch)
                    (decodedRequest demo.newSearch)).1 /\
  demo.newSearchRecord !! "hits_in_response" = Some (VHits demo.storedHits) /\
  Forall (fun hit : gmap string string => dom hit = {[ "id"; "type"; "source" ]}) demo.storedHits.
Proof.
  assert (("uuid", demo.newSearchRecord)
    ∈ storeCalls (analytics.recordResponse demo.ext demo.now "uuid" ""
                    (respRecorder_of demo.upstream demo.newSearch)
                    (decodedRequest demo.newSearch)).1) as Hin.
  { assert (storeCalls (analytics.recordResponse demo.ext demo.now "uuid" ""
                    (respRecorder_of demo.upstream demo.newSearch)
                    (decodedRequest demo.newSearch)).1
            = [("uuid", demo.newSearchRecord)]) as -> by (vm_compute; reflexivity).
    constructor. }
  split; [exact Hin|]. split; [reflexivity|].
  destruct (stored_hits _ _ _ _ _ _ _ _ Hin) as (esResponse & Hdec & _ & _ & Hall).
  assert (esResponse = demo.twoHits) as ->
    by (vm_compute in Hdec; injection Hdec as <-; reflexivity).
  assert (omap (hitOf demo.ext) (take 10 (Hits_Hits demo.twoHits)) = demo.storedHits) as Heq
    by (vm_compute; reflexivity).
  rewrite Heq in Hall. eapply Forall_impl; [exact Hall|]. by intros hit [? _].
Defined.

(** ** Decoding the body *)




(** ** The chain of the analytics routes *)

(** C7: the chain of the analytics routes is, first element outermost, the
    category classifier, the operation classifier, the indices classifier,
    the (logs) recorder, the basic authenticator, the indices validator, the
    operation validator and the category validator, around the terminal
    handler; every middleware after the first sees the request with the
    category Analytics in its context. *)
Theorem chain_is_canonical
    (classify_Op classify_Indices logs_Recorder auth_BasicAuth
     validate_Indices validate_Operation validate_Category : Middleware)
    (h : Handler) (w : ResponseWriter) (req : Request) :
  chain.list classify_Op classify_Indices logs_Recorder auth_BasicAuth
             validate_Indices validate_Operation validate_Category
  = [ analytics.classifyCategory; classify_Op; classify_Indices; logs_Recorder;
      auth_BasicAuth; validate_Indices; validate_Operation; validate_Category ] /\
  chain.Wrap classify_Op classify_Indices logs_Recorder auth_BasicAuth
             validate_Indices validate_Operation validate_Category h
  = analytics.classifyCategory
      (classify_Op (classify_Indices (logs_Recorder (auth_BasicAuth
         (validate_Indices (validate_Operation (validate_Category h))))))) /\
  chain.Wrap classify_Op classify_Indices logs_Recorder auth_BasicAuth
             validate_Indices validate_Operation validate_Category h w req
  = classify_Op (classify_Indices (logs_Recorder (auth_BasicAuth
      (validate_Indices (validate_Operation (validate_Category h))))))
      w (withCategory req category.Analytics).
Proof. repeat split. Qed.

(** ** The bootstrap of the store's index *)

Lemma wrap_int_id z : (- 2 ^ 63 <= z < 2 ^ 63)%Z -> wrap_int z = z.
Proof.
  intros Hz. unfold wrap_int. rewrite Z.mod_small; lia.
Qed.

(** What [initPlugin] does when the index is not there and no call fails. *)
Lemma initPlugin_creates f indexName config c es c' calls :
  logs.initPlugin f indexName config c = (inr es, c', calls) ->
  logs.indices c !! indexName = None ->
  let settings := logs.mkSettings config [logs.nodes c; int_sub (logs.nodes c) 1] in
  c' = logs.mkCluster (<[indexName := settings]> (logs.indices c)) (logs.nodes c) /\
  logs.creations calls = [(indexName, settings)].
Proof.
  intros Hinit Hnone settings. unfold logs.initPlugin, logs.IndexExists, logs.GetTotalNodes,
    logs.CreateIndex in Hinit.
  rewrite Hnone in Hinit.
  rewrite (bool_decide_eq_false_2 (is_Some None)) in Hinit by (by intros [? ?]).
  destruct (logs.failExists f); [done|].
  destruct (logs.failNodes f); [done|].
  rewrite orb_false_r in Hinit.
  destruct (logs.failCreate f); [done|].
  by injection Hinit as _ <- <-.
Qed.

(** C8, as the code has it: when [initPlugin] creates the index, the body
    it is created with holds nodes and nodes-1 (in Go's int), the second
    being number_of_replicas: nodes-1 for every node count above the least
    int, which is max(0, nodes-1) when the cluster has at least one node. *)
Theorem replicas_is_nodes_minus_one f indexName config c es c' calls :
  logs.initPlugin f indexName config c = (inr es, c', calls) ->
  logs.indices c !! indexName = None ->
  (strconv.minInt <= logs.nodes c <= strconv.maxInt)%Z ->
  exists settings,
    logs.indices c' !! indexName = Some settings /\
    logs.creations calls = [(indexName, settings)] /\
    logs.number_of_replicas settings = Some (int_sub (logs.nodes c) 1) /\
    ((strconv.minInt < logs.nodes c)%Z ->
     logs.number_of_replicas settings = Some (logs.nodes c - 1)%Z) /\
    ((1 <= logs.nodes c)%Z ->
     logs.number_of_replicas settings = Some (Z.max 0 (logs.nodes c - 1))).
Proof.
  intros Hinit Hnone Hrange.
  destruct (initPlugin_creates _ _ _ _ _ _ _ Hinit Hnone) as [-> Hcalls].
  eexists. split; [apply lookup_insert_eq|]. split; [exact Hcalls|].
  unfold logs.number_of_replicas, int_sub, strconv.minInt, strconv.maxInt in *. simpl.
  split; [done|]. split.
  - intros Hmin. rewrite wrap_int_id; [done | lia].
  - intros Hone. rewrite wrap_int_id; [|lia]. f_equal. lia.
Qed.

Lemma replicas_is_nodes_minus_one_witness :
  logs.initPlugin demo.noFaults ".logs" demo.config (demo.cluster 3)
  = (inr (logs.mkElasticsearch ".logs"),
     logs.mkCluster {[ ".logs" := logs.mkSettings demo.config [3; 2]%Z ]} 3,
     [logs.CallIndexExists ".logs"; logs.CallGetTotalNodes;
      logs.CallCreateIndex ".logs" (logs.mkSettings demo.config [3; 2]%Z)]) /\
  exists settings,
    logs.indices (logs.mkCluster {[ ".logs" := logs.mkSettings demo.config [3; 2]%Z ]} 3)
      !! ".logs" = Some settings /\
    logs.number_of_replicas settings = Some (Z.max 0 (3 - 1)).
Proof.
  assert (logs.initPlugin demo.noFaults ".logs" demo.config (demo.cluster 3)
  = (inr (logs.mkElasticsearch ".logs"),
     logs.mkCluster {[ ".logs" := logs.mkSettings demo.config [3; 2]%Z ]} 3,
     [logs.CallIndexExists ".logs"; logs.CallGetTotalNodes;
      logs.CallCreateIndex ".logs" (logs.mkSettings demo.config [3; 2]%Z)])) as Hinit
    by (vm_compute; reflexivity).
  split; [exact Hinit|].
  destruct (replicas_is_nodes_minus_one _ _ _ _ _ _ _ Hinit) as (settings & Hs & _ & _ & _ & Hmax).
  - reflexivity.
  - vm_compute. split; discriminate.
  - exists settings. split; [exact Hs|]. apply Hmax. vm_compute. discriminate.
Defined.

(** C8 as stated fails on a cluster that reports no node: the index is
    created with number_of_replicas -1, and max(0, nodes-1) is 0. *)
Lemma replicas_of_zero_nodes :
  logs.initPlugin demo.noFaults ".logs" demo.config (demo.cluster 0)
  = (inr (logs.mkElasticsearch ".logs"),
     logs.mkCluster {[ ".logs" := logs.mkSettings demo.config [0; -1]%Z ]} 0,
     [logs.CallIndexExists ".logs"; logs.CallGetTotalNodes;
      logs.CallCreateIndex ".logs" (logs.mkSettings demo.config [0; -1]%Z)]) /\
  logs.number_of_replicas (logs.mkSettings demo.config [0; -1]%Z) = Some (-1)%Z /\
  Z.max 0 (logs.nodes (demo.cluster 0) - 1) = 0%Z /\
  logs.number_of_replicas (logs.mkSettings demo.config [0; -1]%Z)
    ≠ Some (Z.max 0 (logs.nodes (demo.cluster 0) - 1)).
Proof.
  split; [vm_compute; reflexivity|]. split; [reflexivity|]. split; [reflexivity|].
  discriminate.
Qed.

Lemma initPlugin_existing f indexName config c :
  logs.failExists f = false ->
  is_Some (logs.indices c !! indexName) ->
  logs.initPlugin f indexName config c
  = (inr (logs.mkElasticsearch indexName), c, [logs.CallIndexExists indexName]).
Proof.
  intros Hf Hex. unfold logs.initPlugin, logs.IndexExists. rewrite Hf.
  by rewrite (bool_decide_eq_true_2 _ Hex).
Qed.

Lemma initPlugin_success f indexName config c es c1 calls :
  logs.initPlugin f indexName config c = (inr es, c1, calls) ->
  is_Some (logs.indices c1 !! indexName) /\
  dom (logs.indices c1) = dom (logs.indices c) ∪ {[ indexName ]} /\
  length (logs.creations calls) <= 1.
Proof.
  unfold logs.initPlugin, logs.IndexExists, logs.GetTotalNodes, logs.CreateIndex.
  destruct (logs.failExists f); [done|].
  destruct (logs.indices c !! indexName) as [s|] eqn:E.
  - rewrite (bool_decide_eq_true_2 (is_Some (Some s))) by eauto.
    intros [= <- <- <-]. split; [by rewrite E|]. split; [|simpl; lia].
    assert (indexName ∈ dom (logs.indices c)) by (apply elem_of_dom; eauto). set_solver.
  - rewrite (bool_decide_eq_false_2 (is_Some None)) by (by intros [? ?]).
    destruct (logs.failNodes f); [done|]. rewrite orb_false_r.
    destruct (logs.failCreate f); [done|].
    intros [= <- <- <-]. simpl. split; [by rewrite lookup_insert_eq|].
    split; [|lia]. rewrite dom_insert_L. set_solver.
Qed.

(** C9: on a cluster that has the index, [initPlugin] (its existence check
    answering) returns successfully after that one check, creates nothing
    and leaves the cluster as it is.  So after a call that succeeded, a
    second call does just that: the two calls together create the index at
    most once, and the cluster has the indices it had before, and the one
    index of the store. *)
Theorem initPlugin_idempotent f1 f2 indexName config c es c1 calls1 :
  logs.initPlugin f1 indexName config c = (inr es, c1, calls1) ->
  logs.failExists f2 = false ->
  logs.initPlugin f2 indexName config c1
    = (inr (logs.mkElasticsearch indexName), c1, [logs.CallIndexExists indexName]) /\
  logs.creations [logs.CallIndexExists indexName] = [] /\
  length (logs.creations (calls1 ++ [logs.CallIndexExists indexName])) <= 1 /\
  is_Some (logs.indices c1 !! indexName) /\
  dom (logs.indices c1) = dom (logs.indices c) ∪ {[ indexName ]}.
Proof.
  intros Hfirst Hf2.
  destruct (initPlugin_success _ _ _ _ _ _ _ Hfirst) as (Hex & Hdom & Hlen).
  split; [by apply initPlugin_existing|]. split; [done|].
  split; [|done]. unfold logs.creations in *. rewrite omap_app. simpl.
  by rewrite app_nil_r.
Qed.

Lemma initPlugin_idempotent_witness :
  logs.initPlugin demo.noFaults ".logs" demo.config (demo.cluster 3)
  = (inr (logs.mkElasticsearch ".logs"),
     logs.mkCluster {[ ".logs" := logs.mkSettings demo.config [3; 2]%Z ]} 3,
     [logs.CallIndexExists ".logs"; logs.CallGetTotalNodes;
      logs.CallCreateIndex ".logs" (logs.mkSettings demo.config [3; 2]%Z)]) /\
  logs.initPlugin demo.noFaults ".logs" demo.config
    (logs.mkCluster {[ ".logs" := logs.mkSettings demo.config [3; 2]%Z ]} 3)
  = (inr (logs.mkElasticsearch ".logs"),
     logs.mkCluster {[ ".logs" := logs.mkSettings demo.config [3; 2]%Z ]} 3,
     [logs.CallIndexExists ".logs"]).
Proof.
  assert (logs.initPlugin demo.noFaults ".logs" demo.config (demo.cluster 3)
  = (inr (logs.mkElasticsearch ".logs"),
     logs.mkCluster {[ ".logs" := logs.mkSettings demo.config [3; 2]%Z ]} 3,
     [logs.CallIndexExists ".logs"; logs.CallGetTotalNodes;
      logs.CallCreateIndex ".logs" (logs.mkSettings demo.config [3; 2]%Z)])) as Hinit
    by (vm_compute; reflexivity).
  split; [exact Hinit|].
  exact (proj1 (initPlugin_idempotent demo.noFaults demo.noFaults ".logs" demo.config
                  _ _ _ _ Hinit eq_refl)).
Defined.

(** * More of the code *)

(** ** Every run of the recorder *)

Lemma recordingb_recording r : recordingb r = true <-> recording r.
Proof.
  unfold recordingb, recording. rewrite !andb_true_iff, negb_true_iff, andb_false_iff.
  rewrite bool_decide_eq_true, !bool_decide_eq_false. split.
  - intros [[Hc Hok] Hne]. split; [done|]. split; [done|]. tauto.
  - intros (Hc & Hok & Hne). split; [done|].
    destruct (decide (http.Header_Get (decoded r).1 analytics.XSearchQuery = "")); tauto.
Qed.

(** The run of [recorder], case by case. *)
Lemma recorder_run ext h uuid_New w r :
  run (analytics.recorder ext h uuid_New r) w =
  match r_ctxCategory r with
  | None =>
      mkWorld (util_WriteBackError ext "an error occurred while recording search request" 500 w)
              [EvLog LogCategoryMissing;
               EvWriteBackError "an error occurred while recording search request" 500]
  | Some _ =>
      if recordingb r
      then mkWorld (replay ext h (clientWrites (respRecorder_of h r) (docID_of uuid_New r)) w)
                   (EvServe OnRecorder (decodedRequest r)
                    :: clientWrites (respRecorder_of h r) (docID_of uuid_New r)
                    ++ [EvGo (task_of h uuid_New r)])
      else mkWorld (h w (decodedRequest r)).1
                   ((if (decoded r).2 then [] else [EvLog LogHeaderDecode])
                    ++ [EvServe OnClient (decodedRequest r)])
  end.
Proof.
  destruct (r_ctxCategory r) as [c|] eqn:Hc.
  - destruct (recordingb r) eqn:Hrec.
    + apply recorder_recording. by apply recordingb_recording.
    + unfold recordingb in Hrec. rewrite Hc in Hrec.
      unfold run, analytics.recorder, decodedRequest, decoded in *. rewrite Hc.
      destruct (analytics.decodeHeaders _ _) as [hdr ok]. cbn [fst snd] in *.
      destruct ok; [|reflexivity]. cbn [r_Header withHeader].
      rewrite andb_true_r in Hrec.
      destruct (decide (c = category.Search)) as [->|Hne].
      * rewrite bool_decide_eq_true_2 in Hrec by done. cbn [andb] in Hrec.
        apply negb_false_iff in Hrec. rewrite Hrec.
        rewrite bool_decide_eq_false_2 by (intros H; by apply H). reflexivity.
      * by rewrite (bool_decide_eq_true_2 (c ≠ category.Search)).
  - unfold run, analytics.recorder. rewrite Hc. reflexivity.
Qed.

Lemma served_clientWrites resp docID : served (clientWrites resp docID) = [].
Proof.
  unfold clientWrites, served. rewrite omap_app. simpl. rewrite app_nil_r.
  induction (w_Header resp) as [|kv l IH]; [done|]. exact IH.
Qed.

(** X1: with no category in its context the recorder logs, has the error
    written to the client with status 500 and never calls the inner
    handler; with one, it calls the inner handler exactly once, on its
    recorder when the request is recorded and on the client's writer
    otherwise, always with the request as the header loop left it. *)
Theorem recorder_serves_once ext h uuid_New w r :
  match r_ctxCategory r with
  | None =>
      run (analytics.recorder ext h uuid_New r) w =
      mkWorld (util_WriteBackError ext "an error occurred while recording search request" 500 w)
              [EvLog LogCategoryMissing;
               EvWriteBackError "an error occurred while recording search request" 500]
      /\ served (trace (run (analytics.recorder ext h uuid_New r) w)) = []
  | Some _ =>
      served (trace (run (analytics.recorder ext h uuid_New r) w))
      = [(if recordingb r then OnRecorder else OnClient, decodedRequest r)]
  end.
Proof.
  rewrite recorder_run. destruct (r_ctxCategory r) as [c|]; [|done].
  destruct (recordingb r); cbn [trace].
  - change (served ([EvServe OnRecorder (decodedRequest r)]
                    ++ clientWrites (respRecorder_of h r) (docID_of uuid_New r)
                    ++ [EvGo (task_of h uuid_New r)]) = [(OnRecorder, decodedRequest r)]).
    unfold served. rewrite !omap_app.
    fold (served (clientWrites (respRecorder_of h r) (docID_of uuid_New r))).
    by rewrite served_clientWrites.
  - by destruct (decoded r).2.
Qed.

(** X2: the recorder starts a task exactly when the request is recorded
    (category Search, headers that unescape, a query or a search id), and
    then one task; the worker itself never calls the store. *)
Theorem recorder_spawns_iff_recording ext h uuid_New w r :
  (recordingb r = true <-> recording r) /\
  spawned (trace (run (analytics.recorder ext h uuid_New r) w))
  = (if recordingb r then [task_of h uuid_New r] else []) /\
  storeCalls (trace (run (analytics.recorder ext h uuid_New r) w)) = [].
Proof.
  split; [apply recordingb_recording|].
  rewrite recorder_run. destruct (r_ctxCategory r) as [c|] eqn:Hc.
  - destruct (recordingb r); cbn [trace].
    + change (EvServe OnRecorder (decodedRequest r)
              :: clientWrites (respRecorder_of h r) (docID_of uuid_New r)
              ++ [EvGo (task_of h uuid_New r)])
        with ([EvServe OnRecorder (decodedRequest r)]
              ++ clientWrites (respRecorder_of h r) (docID_of uuid_New r)
              ++ [EvGo (task_of h uuid_New r)]).
      unfold spawned, storeCalls. rewrite !omap_app.
      fold (spawned (clientWrites (respRecorder_of h r) (docID_of uuid_New r))).
      fold (storeCalls (clientWrites (respRecorder_of h r) (docID_of uuid_New r))).
      by rewrite spawned_clientWrites, storeCalls_clientWrites.
    + by destruct (decoded r).2.
  - assert (recordingb r = false) as ->; [|done].
    unfold recordingb. rewrite Hc. by rewrite bool_decide_eq_false_2.
Qed.
(** ** The header loop, when it runs through *)

Lemma Header_values_keys h k vs :
  http.Header_values h k = Some vs -> k ∈ http.Header_keys h.
Proof.
  unfold http.Header_keys. induction h as [|[k' vs'] h IH]; simpl; [done|].
  destruct (String.eqb k k') eqn:E.
  - apply String.eqb_eq in E. subst. intros _. apply elem_of_cons. by left.
  - intros H. apply elem_of_cons. right. by apply IH.
Qed.

Lemma Header_values_None h k :
  k ∉ http.Header_keys h -> http.Header_values h k = None.
Proof.
  intros Hk. destruct (http.Header_values h k) eqn:E; [|done].
  by apply Header_values_keys in E.
Qed.

Lemma decode_success keys : forall hdr k,
  NoDup keys ->
  (analytics.decodeHeaders keys hdr).2 = true ->
  k ∈ keys ->
  GoStrings.HasPrefix k "X-Search-" = true ->
  exists v, url.QueryUnescape (http.Header_Get hdr k) = Some v /\
            http.Header_values (analytics.decodeHeaders keys hdr).1 k = Some [v].
Proof.
  induction keys as [|header keys IH]; intros hdr k Hnd Hok Hin Hp.
  - by apply elem_of_nil in Hin.
  - apply NoDup_cons in Hnd as [Hnotin Hnd]. simpl in *.
    apply elem_of_cons in Hin as [->|Hin].
    + rewrite Hp in *.
      destruct (url.QueryUnescape (http.Header_Get hdr header)) as [v|] eqn:Hv; [|done].
      exists v. split; [done|].
      destruct (decode_values keys (http.Header_Set hdr header v) header Hnd)
        as [-> | (Hin & _)]; [|done].
      apply Header_values_assign_eq.
    + assert (header ≠ k) as Hne by (intros ->; done).
      destruct (GoStrings.HasPrefix header _) eqn:Hph; [|by apply IH].
      destruct (url.QueryUnescape (http.Header_Get hdr header)) as [v|] eqn:Hv; [|done].
      destruct (IH (http.Header_Set hdr header v) k Hnd Hok Hin Hp) as (v' & Hv' & Hval).
      exists v'. split; [|done]. unfold http.Header_Set in Hv'.
      by rewrite Header_Get_assign_ne in Hv'.
Qed.

(** X3: when the header loop runs through (each key held once, as in a Go
    map), the request keeps its header keys, every X-Search-* header holds
    exactly one value, the one its first value unescapes to, and every other
    header is as received. *)
Theorem unescaped_headers r :
  NoDup (http.Header_keys (r_Header r)) ->
  (decoded r).2 = true ->
  http.Header_keys (decoded r).1 = http.Header_keys (r_Header r) /\
  forall k,
    if GoStrings.HasPrefix k "X-Search-"
    then k ∈ http.Header_keys (r_Header r) ->
         exists v, url.QueryUnescape (http.Header_Get (r_Header r) k) = Some v /\
                   http.Header_values (decoded r).1 k = Some [v]
    else http.Header_values (decoded r).1 k = http.Header_values (r_Header r) k.
Proof.
  intros Hnd Hok. split; [by apply decode_keys|]. intros k. unfold decoded in *.
  destruct (GoStrings.HasPrefix k "X-Search-") eqn:Hp.
  - intros Hin. by apply decode_success.
  - destruct (decode_values _ (r_Header r) k Hnd) as [Hv | (_ & Hp' & _)]; [done|congruence].
Qed.

Lemma unescaped_headers_witness :
  NoDup (http.Header_keys (r_Header demo.newSearch)) /\
  (decoded demo.newSearch).2 = true /\
  http.Header_values (decoded demo.newSearch).1 "X-Search-Query" = Some ["hello world"].
Proof.
  assert (NoDup (http.Header_keys (r_Header demo.newSearch))) as Hnd
    by (apply (bool_decide_unpack _); vm_compute; exact I).
  assert ((decoded demo.newSearch).2 = true) as Hok by (vm_compute; reflexivity).
  split; [exact Hnd|]. split; [exact Hok|].
  destruct (unescaped_headers demo.newSearch Hnd Hok) as [_ Hall].
  specialize (Hall "X-Search-Query"). cbv beta in Hall.
  change (GoStrings.HasPrefix "X-Search-Query" "X-Search-") with true in Hall.
  destruct Hall as (v & Hv & ->).
  - apply (bool_decide_unpack _). vm_compute. exact I.
  - vm_compute in Hv. by injection Hv as <-.
Defined.

Lemma QueryUnescape_plain s : plain s = true -> url.QueryUnescape s = Some s.
Proof.
  unfold plain. induction s as [|c s IH]; [done|]. simpl.
  rewrite andb_true_iff, andb_true_iff, !negb_true_iff. intros [[H1 H2] Hs].
  rewrite H1, H2, (IH Hs). reflexivity.
Qed.

Lemma Header_assign_same h k vs :
  http.Header_values h k = Some vs -> http.Header_assign h k vs = h.
Proof.
  induction h as [|[k' vs'] h IH]; simpl; [done|].
  destruct (String.eqb k k') eqn:E.
  - apply String.eqb_eq in E. subst. by intros [= ->].
  - intros H. by rewrite IH.
Qed.

Lemma decode_plain keys : forall hdr,
  (forall k, k ∈ keys -> GoStrings.HasPrefix k "X-Search-" = true ->
     exists v, http.Header_values hdr k = Some [v] /\ plain v = true) ->
  analytics.decodeHeaders keys hdr = (hdr, true).
Proof.
  induction keys as [|header keys IH]; intros hdr Hall; simpl; [done|].
  assert (analytics.decodeHeaders keys hdr = (hdr, true)) as Hrest.
  { apply IH. intros k Hk. apply Hall. apply elem_of_cons. by right. }
  destruct (GoStrings.HasPrefix header _) eqn:Hp; [|done].
  destruct (Hall header) as (v & Hv & Hplain); [apply elem_of_cons; by left | done |].
  unfold http.Header_Get. rewrite Hv. rewrite (QueryUnescape_plain _ Hplain).
  unfold http.Header_Set. by rewrite (Header_assign_same _ _ _ Hv).
Qed.

(** X4: a request whose X-Search-* headers each hold a single value with no
    [%] and no [+] leaves the header loop as it was received, and the loop
    runs through. *)
Theorem plain_headers_unchanged r :
  (forall k, k ∈ http.Header_keys (r_Header r) ->
     GoStrings.HasPrefix k "X-Search-" = true ->
     exists v, http.Header_values (r_Header r) k = Some [v] /\ plain v = true) ->
  decoded r = (r_Header r, true) /\ decodedRequest r = r.
Proof.
  intros Hall. assert (decoded r = (r_Header r, true)) as H by (by apply decode_plain).
  split; [done|]. unfold decodedRequest. rewrite H. by destruct r.
Qed.

Lemma plain_headers_unchanged_witness :
  decodedRequest demo.followUp = demo.followUp.
Proof.
  apply (plain_headers_unchanged demo.followUp).
  intros k Hk Hp. vm_compute in Hk.
  apply elem_of_cons in Hk as [->|Hk]; [eexists; split; reflexivity|].
  apply elem_of_cons in Hk as [->|Hk]; [eexists; split; reflexivity|].
  apply elem_of_cons in Hk as [->|Hk]; [eexists; split; reflexivity|].
  by apply elem_of_nil in Hk.
Defined.
(** ** The response the client receives when a request is recorded *)

Lemma copy_values src : forall w k,
  NoDup (http.Header_keys src) ->
  http.Header_values (w_Header (fold_left (fun w kv => w_assign kv.1 kv.2 w) src w)) k =
  match http.Header_values src k with
  | Some vs => Some vs
  | None => http.Header_values (w_Header w) k
  end.
Proof.
  induction src as [|[k0 v0] src IH]; intros w k Hnd; [done|].
  apply NoDup_cons in Hnd as [Hnotin Hnd]. cbn [fold_left fst snd].
  rewrite IH by done. cbn [http.Header_values w_assign w_Header].
  destruct (String.eqb k k0) eqn:E.
  - apply String.eqb_eq in E. subst k0.
    rewrite (Header_values_None src k) by done. apply Header_values_assign_eq.
  - destruct (http.Header_values src k); [done|].
    apply Header_values_assign_ne. intros ->. by rewrite String.eqb_refl in E.
Qed.

(** X5: when a request is recorded and the client's status line had not
    gone out, the headers sent to the client are the inner handler's (each
    key held once), over the headers the writer already had, with
    X-Search-Id set to the doc id whatever the inner handler had put
    there. *)
Theorem recorded_response_headers ext h uuid_New w r k :
  recording r ->
  w_wroteHeader w = false ->
  NoDup (http.Header_keys (w_Header (respRecorder_of h r))) ->
  k ≠ analytics.XSearchID ->
  http.Header_values
    (w_snapHeader (client (run (analytics.recorder ext h uuid_New r) w))) k
  = match http.Header_values (w_Header (respRecorder_of h r)) k with
    | Some vs => Some vs
    | None => http.Header_values (w_Header w) k
    end /\
  http.Header_values
    (w_snapHeader (client (run (analytics.recorder ext h uuid_New r) w))) analytics.XSearchID
  = Some [docID_of uuid_New r].
Proof.
  intros Hrec Hw Hnd Hk. rewrite (recorder_recording _ _ _ _ _ Hrec).
  rewrite replay_clientWrites. cbn [client].
  destruct (copied_sent (respRecorder_of h r) (docID_of uuid_New r) w Hw) as (_ & _ & ->).
  assert (forall b c W, w_Header (Write b (WriteHeader c W)) = w_Header W) as Hhdr.
  { intros b c W. unfold Write, WriteHeader. destruct (w_wroteHeader W) eqn:E; cbn; rewrite ?E; reflexivity. }
  rewrite Hhdr. cbn [w_assign w_Header]. split.
  - rewrite Header_values_assign_ne by done. by apply copy_values.
  - apply Header_values_assign_eq.
Qed.

Lemma recorded_response_headers_witness :
  recording demo.newSearch /\
  http.Header_values
    (w_snapHeader (client (run (analytics.recorder demo.ext demo.upstream "uuid" demo.newSearch)
                               demo.clientWriter))) "Content-Type"
  = Some ["application/json"].
Proof.
  assert (Hrec : recording demo.newSearch).
  { split; [reflexivity|]. split; [vm_compute; reflexivity|].
    intros [H _]; vm_compute in H; discriminate. }
  split; [exact Hrec|].
  destruct (recorded_response_headers demo.ext demo.upstream "uuid" demo.clientWriter
              demo.newSearch "Content-Type" Hrec) as [-> _].
  - reflexivity.
  - apply (bool_decide_unpack _). vm_compute. exact I.
  - discriminate.
  - vm_compute. reflexivity.
Defined.

(** ** The value of the record *)

Lemma lookup_optInsert_ne key o (record : gmap string Value) k :
  k ≠ key -> optInsert key o record !! k = record !! k.
Proof. intros Hne. destruct o; simpl; [|done]. by rewrite lookup_insert_ne. Qed.

Lemma lookup_optInsert_eq key o (record : gmap string Value) :
  optInsert key o record !! key = match o with Some v => Some v | None => record !! key end.
Proof. destruct o; simpl; [|done]. by rewrite lookup_insert_eq. Qed.

Lemma parsedField_value {A} (conv : string -> option A) inj bad r header key record :
  (analytics.parsedField conv inj bad r header key record).2
  = Some (optInsert key (inj <$> parsedHeader conv r header) record).
Proof.
  unfold analytics.parsedField, parsedHeader.
  destruct (bool_decide _); [|done]. by destruct (conv _).
Qed.

Lemma T_bind_value_Some {A B} (m : T A) (f : A -> T B) a :
  m.2 = Some a -> (m ≫= f).2 = (f a).2.
Proof. intros H. by rewrite T_bind_value, H. Qed.

Lemma searchFields_value ext now r esResponse record :
  (analytics.searchFields ext now r esResponse
     (omap (hitOf ext) (take 10 (Hits_Hits esResponse))) record).2
  = searchPart ext now r esResponse record.
Proof.
  unfold analytics.searchFields, searchPart, nonEmpty.
  destruct (r_ctxIndices r); [|done]. simpl. by destruct (_ <? _)%nat.
Qed.

(** [buildRecord] yields the record [recordOf] describes, or returns
    early where it has none. *)
Lemma buildRecord_value ext now searchID r esResponse :
  (analytics.buildRecord ext now searchID r esResponse).2
  = recordOf ext now searchID r esResponse.
Proof.
  unfold analytics.buildRecord, recordOf.
  rewrite (T_bind_value_Some _ _ _ (hitsLoop_value ext 10 (Hits_Hits esResponse))).
  cbv beta zeta. rewrite T_bind_value.
  assert (forall rec0,
    (match iplookup_GetCoordinates ext (iplookup_FromRequest ext r) with
     | Some coordinates =>
         mret (<["location" := VCoordinates coordinates]>
                 (<["ip" := VString (iplookup_FromRequest ext r)]> rec0))
     | None =>
         tell (EvLog (LogCoordinates (iplookup_FromRequest ext r))) ;;
         mret (<["ip" := VString (iplookup_FromRequest ext r)]> rec0)
     end : T (gmap string Value)).2
    = Some (optInsert "location"
              (fmap (M := option) VCoordinates
                 (iplookup_GetCoordinates ext (iplookup_FromRequest ext r)))
              (<["ip" := VString (iplookup_FromRequest ext r)]> rec0))) as Hloc.
  { intros rec0. by destruct (iplookup_GetCoordinates ext _). }
  assert (forall rec1,
    (match iplookup_GetCountry ext (iplookup_FromRequest ext r) with
     | Some country => mret (<["country" := VString country]> rec1)
     | None => tell (EvLog (LogCountry (iplookup_FromRequest ext r))) ;; mret rec1
     end : T (gmap string Value)).2
    = Some (optInsert "country"
              (fmap (M := option) VString
                 (iplookup_GetCountry ext (iplookup_FromRequest ext r))) rec1)) as Hcty.
  { intros rec1. by destruct (iplookup_GetCountry ext _). }
  destruct (bool_decide (searchID = "")).
  - rewrite searchFields_value.
    destruct (searchPart _ _ _ _ _) as [rec0|]; [|done].
    rewrite (T_bind_value_Some _ _ _ (Hloc rec0)), (T_bind_value_Some _ _ _ (Hcty _)).
    rewrite !(T_bind_value_Some _ _ _ (parsedField_value _ _ _ _ _ _ _)).
    unfold followUpPart, nonEmpty. destruct (Nat.ltb _ _); reflexivity.
  - change (mret (<["took" := VFloat (Took esResponse)]> ∅) : T _).2
      with (Some (<["took" := VFloat (Took esResponse)]> (∅ : gmap string Value))).
    cbv beta iota.
    rewrite (T_bind_value_Some _ _ _ (Hloc _)), (T_bind_value_Some _ _ _ (Hcty _)).
    rewrite !(T_bind_value_Some _ _ _ (parsedField_value _ _ _ _ _ _ _)).
    unfold followUpPart, nonEmpty. destruct (Nat.ltb _ _); reflexivity.
Qed.

Lemma stored_recordOf ext now docID searchID w r id rec :
  (id, rec) ∈ storeCalls (analytics.recordResponse ext now docID searchID w r).1 ->
  id = docID /\
  exists esResponse,
    (analytics.decodeResponse ext (r_RequestURI r) (analytics.replaceFields (w_Body w))).2
      = Some esResponse /\
    recordOf ext now searchID r esResponse = Some rec.
Proof.
  intros (-> & esResponse & Hdec & Hrec)%stored_record. split; [done|].
  exists esResponse. split; [done|]. by rewrite <- buildRecord_value.
Qed.

Lemma followUpPart_other ext r record k :
  k ∉ followUpFields -> followUpPart ext r record !! k = record !! k.
Proof.
  intros Hk. unfold followUpPart, followUpFields in *.
  rewrite !lookup_optInsert_ne, lookup_insert_ne; set_solver.
Qed.

Lemma searchPart_followUp_free ext now r esResponse record rec0 k :
  searchPart ext now r esResponse record = Some rec0 ->
  k ∈ followUpFields -> record !! k = None -> rec0 !! k = None.
Proof.
  unfold searchPart, followUpFields. destruct (r_ctxIndices r); [|done].
  intros [= <-] Hk Hnone.
  rewrite lookup_optInsert_ne, !lookup_insert_ne; set_solver.
Qed.

(** The record stored has the follow-up fields on top of a record that has
    none of them. *)
Lemma recordOf_split ext now searchID r esResponse rec :
  recordOf ext now searchID r esResponse = Some rec ->
  exists rec0, rec = followUpPart ext r rec0 /\
    (forall k, k ∈ followUpFields -> rec0 !! k = None) /\
    (if bool_decide (searchID = "")
     then searchPart ext now r esResponse (<["took" := VFloat (Took esResponse)]> ∅) = Some rec0
     else rec0 = <["took" := VFloat (Took esResponse)]> ∅).
Proof.
  unfold recordOf. destruct (bool_decide (searchID = "")).
  - destruct (searchPart _ _ _ _ _) as [rec0|] eqn:E; [|done]. intros [= <-].
    exists rec0. split; [done|]. split; [|done]. intros k Hk.
    eapply searchPart_followUp_free; [done..|].
    rewrite lookup_insert_ne; [done|]. unfold followUpFields in Hk. set_solver.
  - intros [= <-]. eexists. split; [done|]. split; [|done]. intros k Hk.
    rewrite lookup_insert_ne; [done|]. unfold followUpFields in Hk. set_solver.
Qed.
Lemma parsedHeader_conv {A} (conv : string -> option A) r header :
  conv "" = None ->
  parsedHeader conv r header = conv (http.Header_Get (r_Header r) header).
Proof.
  intros Hconv. unfold parsedHeader.
  destruct (bool_decide _) eqn:E; [done|].
  apply bool_decide_eq_false in E. apply dec_stable in E. by rewrite E.
Qed.

(** X6: the record of a new search holds, under the doc id, the indices of
    the request's context, the query header as the request carries it, the
    total of the decoded response, its took, and the time the record was
    built; search_filters is there exactly when the filters header parses
    to a map that is not empty. *)
Theorem newSearch_record_fields ext now docID w r id rec :
  (id, rec) ∈ storeCalls (analytics.recordResponse ext now docID "" w r).1 ->
  id = docID /\
  exists esResponse ctxIndices,
    (analytics.decodeResponse ext (r_RequestURI r) (analytics.replaceFields (w_Body w))).2
      = Some esResponse /\
    r_ctxIndices r = Some ctxIndices /\
    rec !! "indices" = Some (VStrings ctxIndices) /\
    rec !! "search_query"
      = Some (VString (http.Header_Get (r_Header r) analytics.XSearchQuery)) /\
    rec !! "total_hits" = Some (VInt (Hits_Total esResponse)) /\
    rec !! "took" = Some (VFloat (Took esResponse)) /\
    rec !! "timestamp" = Some (VString now) /\
    rec !! "search_filters"
      = (let filters := parse ext (http.Header_Get (r_Header r) analytics.XSearchFilters) in
         if (0 <? size filters)%nat then Some (VStringMap filters) else None).
Proof.
  intros (-> & esResponse & Hdec & Hrec)%stored_recordOf. split; [done|].
  apply recordOf_split in Hrec as (rec0 & -> & _ & Hsearch).
  rewrite bool_decide_eq_true_2 in Hsearch by done.
  unfold searchPart in Hsearch.
  destruct (r_ctxIndices r) as [ctxIndices|]; [|done]. injection Hsearch as <-.
  exists esResponse, ctxIndices. split; [done|]. split; [done|].
  rewrite !followUpPart_other by (apply (bool_decide_eq_false_1 _); vm_compute; reflexivity).
  rewrite lookup_optInsert_eq, !lookup_optInsert_ne by done.
  unfold nonEmpty. cbv zeta.
  repeat split; try (by simplify_map_eq).
  destruct (Nat.ltb _ _); by simplify_map_eq.
Qed.

Lemma newSearch_record_fields_witness :
  ("uuid", demo.newSearchRecord)
    ∈ storeCalls (analytics.recordResponse demo.ext demo.now "uuid" ""
                    (respRecorder_of demo.upstream demo.newSearch)
                    (decodedRequest demo.newSearch)).1 /\
  demo.newSearchRecord !! "search_query" = Some (VString "hello world") /\
  demo.newSearchRecord !! "indices" = Some (VStrings ["twitter"]).
Proof.
  assert (("uuid", demo.newSearchRecord)
    ∈ storeCalls (analytics.recordResponse demo.ext demo.now "uuid" ""
                    (respRecorder_of demo.upstream demo.newSearch)
                    (decodedRequest demo.newSearch)).1) as Hin.
  { assert (storeCalls (analytics.recordResponse demo.ext demo.now "uuid" ""
                    (respRecorder_of demo.upstream demo.newSearch)
                    (decodedRequest demo.newSearch)).1
            = [("uuid", demo.newSearchRecord)]) as -> by (vm_compute; reflexivity).
    constructor. }
  split; [exact Hin|].
  destruct (newSearch_record_fields _ _ _ _ _ _ _ Hin)
    as (_ & esResponse & ctxIndices & _ & Hidx & Hi & Hq & _).
  split.
  - rewrite Hq. reflexivity.
  - rewrite Hi. vm_compute in Hidx. by injection Hidx as <-.
Defined.

(** X7: a new search whose request has no indices in its context is not
    recorded: whatever the body decodes to, the task hands nothing to the
    store. *)
Theorem newSearch_without_indices ext now docID w r :
  r_ctxIndices r = None ->
  storeCalls (analytics.recordResponse ext now docID "" w r).1 = [].
Proof.
  intros Hidx. rewrite storeCalls_recordResponse.
  destruct (analytics.decodeResponse _ _ _).2 as [esResponse|]; [|done].
  rewrite buildRecord_value. unfold recordOf, searchPart. by rewrite Hidx.
Qed.

Lemma newSearch_without_indices_witness :
  storeCalls (analytics.recordResponse demo.ext demo.now "uuid" ""
                (respRecorder_of demo.upstream demo.newSearch)
                (mkRequest [("X-Search-Query", ["hello world"])] "/twitter/_search"
                   (Some category.Search) None)).1 = [].
Proof. apply newSearch_without_indices. reflexivity. Defined.

(** X8: in every record stored, click, click_position and conversion are
    there exactly when their header parses ([strconv.ParseBool],
    [strconv.Atoi]), and then hold the parsed value; an empty or
    unparsable header leaves the field out and does not stop the record. *)
Theorem parsed_header_fields ext now docID searchID w r id rec :
  (id, rec) ∈ storeCalls (analytics.recordResponse ext now docID searchID w r).1 ->
  rec !! "click"
    = (VBool <$> strconv.ParseBool (http.Header_Get (r_Header r) analytics.XSearchClick)) /\
  rec !! "click_position"
    = (VInt <$> strconv.Atoi (http.Header_Get (r_Header r) analytics.XSearchClickPosition)) /\
  rec !! "conversion"
    = (VBool <$> strconv.ParseBool (http.Header_Get (r_Header r) analytics.XSearchConversion)).
Proof.
  intros (_ & esResponse & _ & Hrec)%stored_recordOf.
  apply recordOf_split in Hrec as (rec0 & -> & Hfree & _).
  rewrite <- !(parsedHeader_conv strconv.ParseBool r) by reflexivity.
  rewrite <- (parsedHeader_conv strconv.Atoi r) by reflexivity.
  assert (rec0 !! "click" = None /\ rec0 !! "click_position" = None
          /\ rec0 !! "conversion" = None) as (Hc & Hp & Hv).
  { repeat split; apply Hfree; apply (bool_decide_unpack _); vm_compute; exact I. }
  unfold followUpPart.
  repeat split;
    repeat (rewrite lookup_optInsert_ne by done);
    rewrite lookup_optInsert_eq;
    repeat (rewrite lookup_optInsert_ne by done);
    rewrite ?lookup_insert_ne by done;
    rewrite ?Hc, ?Hp, ?Hv;
    by destruct (parsedHeader _ _ _).
Qed.

Lemma parsed_header_fields_witness :
  ("abc", demo.followUpRecord)
    ∈ storeCalls (analytics.recordResponse demo.ext demo.now "abc" "abc"
                    (respRecorder_of demo.upstream demo.followUp) demo.followUp).1 /\
  demo.followUpRecord !! "click" = Some (VBool true) /\
  demo.followUpRecord !! "click_position" = Some (VInt 3) /\
  demo.followUpRecord !! "conversion" = None.
Proof.
  assert (("abc", demo.followUpRecord)
    ∈ storeCalls (analytics.recordResponse demo.ext demo.now "abc" "abc"
                    (respRecorder_of demo.upstream demo.followUp) demo.followUp).1) as Hin.
  { assert (storeCalls (analytics.recordResponse demo.ext demo.now "abc" "abc"
                    (respRecorder_of demo.upstream demo.followUp) demo.followUp).1
            = [("abc", demo.followUpRecord)]) as -> by (vm_compute; reflexivity).
    constructor. }
  split; [exact Hin|].
  destruct (parsed_header_fields _ _ _ _ _ _ _ _ Hin) as (-> & -> & ->).
  repeat split.
Defined.

(** X9: in every record stored, ip is the address [iplookup.FromRequest]
    gives, location and country are there exactly when their lookup
    succeeds, and custom_events exactly when the custom-event header parses
    to a map that is not empty; a failed lookup does not stop the record. *)
Theorem lookup_fields ext now docID searchID w r id rec :
  (id, rec) ∈ storeCalls (analytics.recordResponse ext now docID searchID w r).1 ->
  rec !! "ip" = Some (VString (iplookup_FromRequest ext r)) /\
  rec !! "location"
    = (VCoordinates <$> iplookup_GetCoordinates ext (iplookup_FromRequest ext r)) /\
  rec !! "country" = (VString <$> iplookup_GetCountry ext (iplookup_FromRequest ext r)) /\
  rec !! "custom_events"
    = (let events := parse ext (http.Header_Get (r_Header r) analytics.XSearchCustomEvent) in
       if (0 <? size events)%nat then Some (VStringMap events) else None).
Proof.
  intros (_ & esResponse & _ & Hrec)%stored_recordOf.
  apply recordOf_split in Hrec as (rec0 & -> & Hfree & _).
  assert (rec0 !! "location" = None /\ rec0 !! "country" = None
          /\ rec0 !! "custom_events" = None) as (Hl & Hc & He).
  { repeat split; apply Hfree; apply (bool_decide_unpack _); vm_compute; exact I. }
  unfold followUpPart, nonEmpty. cbv zeta.
  repeat split;
    repeat (rewrite lookup_optInsert_ne by done);
    rewrite ?lookup_optInsert_eq;
    repeat (rewrite lookup_optInsert_ne by done);
    rewrite ?lookup_insert_eq, ?lookup_insert_ne by done;
    rewrite ?Hl, ?Hc, ?He; try done.
  - by destruct (iplookup_GetCoordinates ext _).
  - by destruct (iplookup_GetCountry ext _).
  - by destruct (Nat.ltb _ _).
Qed.

Lemma lookup_fields_witness :
  ("abc", demo.followUpRecord)
    ∈ storeCalls (analytics.recordResponse demo.ext demo.now "abc" "abc"
                    (respRecorder_of demo.upstream demo.followUp) demo.followUp).1 /\
  demo.followUpRecord !! "location" = None /\
  demo.followUpRecord !! "country" = Some (VString "AQ").
Proof.
  assert (("abc", demo.followUpRecord)
    ∈ storeCalls (analytics.recordResponse demo.ext demo.now "abc" "abc"
                    (respRecorder_of demo.upstream demo.followUp) demo.followUp).1) as Hin.
  { assert (storeCalls (analytics.recordResponse demo.ext demo.now "abc" "abc"
                    (respRecorder_of demo.upstream demo.followUp) demo.followUp).1
            = [("abc", demo.followUpRecord)]) as -> by (vm_compute; reflexivity).
    constructor. }
  split; [exact Hin|].
  destruct (lookup_fields _ _ _ _ _ _ _ _ Hin) as (_ & -> & -> & _).
  split; reflexivity.
Defined.
Lemma Header_Get_values h k :
  http.Header_Get h k ≠ "" -> exists v vs, http.Header_values h k = Some (v :: vs).
Proof.
  unfold http.Header_Get. destruct (http.Header_values h k) as [[|v vs]|]; [done| |done].
  eauto.
Qed.

(** X10: end to end for a new search (no X-Search-Id; each header key held
    once; an inner handler that leaves the request as it is): the record is
    stored under the value of [uuid.New()], and its search_query is what the
    caller's X-Search-Query unescapes to, which is also what the inner
    handler was handed. *)
Theorem stored_query_is_unescaped ext h uuid_New now r id rec :
  recording r ->
  NoDup (http.Header_keys (r_Header r)) ->
  searchID_of r = "" ->
  (h NewRecorder (decodedRequest r)).2 = decodedRequest r ->
  (id, rec) ∈ storeCalls (analytics.runTask ext now (task_of h uuid_New r)) ->
  id = uuid_New /\
  exists v,
    url.QueryUnescape (http.Header_Get (r_Header r) analytics.XSearchQuery) = Some v /\
    http.Header_Get (r_Header (decodedRequest r)) analytics.XSearchQuery = v /\
    rec !! "search_query" = Some (VString v).
Proof.
  intros (Hc & Hok & Hne) Hnd Hid Hh Hin.
  unfold analytics.runTask, task_of in Hin. cbn [taskDocID taskSearchID taskW taskR] in Hin.
  rewrite Hh, Hid in Hin. unfold docID_of in Hin. rewrite Hid in Hin.
  rewrite bool_decide_eq_true_2 in Hin by done.
  apply stored_recordOf in Hin as (-> & esResponse & _ & Hrec). split; [done|].
  assert (http.Header_Get (decoded r).1 analytics.XSearchQuery ≠ "") as Hq.
  { intros Hq. apply Hne. split; [done|]. exact Hid. }
  destruct (Header_Get_values _ _ Hq) as (q & qs & Hvals).
  assert (analytics.XSearchQuery ∈ http.Header_keys (r_Header r)) as Hkey.
  { rewrite <- (decode_keys (http.Header_keys (r_Header r)) (r_Header r)) by done.
    by eapply Header_values_keys. }
  destruct (decode_success _ (r_Header r) analytics.XSearchQuery Hnd Hok Hkey eq_refl)
    as (v & Hv & Hval).
  exists v. split; [done|].
  assert (http.Header_Get (r_Header (decodedRequest r)) analytics.XSearchQuery = v) as Hget.
  { unfold decodedRequest, decoded, http.Header_Get. cbn [r_Header withHeader]. by rewrite Hval. }
  split; [done|].
  apply recordOf_split in Hrec as (rec0 & -> & _ & Hsearch).
  rewrite bool_decide_eq_true_2 in Hsearch by done. unfold searchPart in Hsearch.
  destruct (r_ctxIndices (decodedRequest r)); [|done]. injection Hsearch as <-.
  rewrite followUpPart_other by (apply (bool_decide_eq_false_1 _); vm_compute; reflexivity).
  rewrite lookup_optInsert_ne by done.
  change (http.Header_Get (decoded r).1 analytics.XSearchQuery)
    with (http.Header_Get (r_Header (decodedRequest r)) analytics.XSearchQuery).
  rewrite Hget. by simplify_map_eq.
Qed.

Lemma stored_query_is_unescaped_witness :
  recording demo.newSearch /\
  http.Header_Get (r_Header demo.newSearch) analytics.XSearchQuery = "hello%20world" /\
  ("uuid", demo.newSearchRecord)
    ∈ storeCalls (analytics.runTask demo.ext demo.now (task_of demo.upstream "uuid" demo.newSearch)) /\
  demo.newSearchRecord !! "search_query" = Some (VString "hello world").
Proof.
  assert (Hrec : recording demo.newSearch).
  { split; [reflexivity|]. split; [vm_compute; reflexivity|].
    intros [H _]; vm_compute in H; discriminate. }
  assert (("uuid", demo.newSearchRecord)
    ∈ storeCalls (analytics.runTask demo.ext demo.now
                    (task_of demo.upstream "uuid" demo.newSearch))) as Hin.
  { assert (storeCalls (analytics.runTask demo.ext demo.now
                    (task_of demo.upstream "uuid" demo.newSearch))
            = [("uuid", demo.newSearchRecord)]) as -> by (vm_compute; reflexivity).
    constructor. }
  split; [exact Hrec|]. split; [reflexivity|]. split; [exact Hin|].
  destruct (stored_query_is_unescaped demo.ext demo.upstream "uuid" demo.now demo.newSearch
              "uuid" demo.newSearchRecord Hrec) as (_ & v & Hv & _ & ->).
  - apply (bool_decide_unpack _). vm_compute. exact I.
  - reflexivity.
  - reflexivity.
  - exact Hin.
  - vm_compute in Hv. by injection Hv as <-.
Defined.

(** ** The hits loop, an empty multi-search, and the replaced field names *)

Lemma hitsLoop_accounts ext n : forall hs,
  exists hits,
    (analytics.hitsLoop ext n hs).2 = Some hits /\
    length (analytics.hitsLoop ext n hs).1 + length hits = min n (length hs) /\
    Forall (fun e => e = EvLog LogMarshalSource) (analytics.hitsLoop ext n hs).1.
Proof.
  induction n as [|n IH]; intros [|x hs]; try (by exists []).
  destruct (IH hs) as (hits & Hv & Hlen & Hlogs).
  rewrite hitsLoop_step. destruct (json_Marshal ext (Source x)) as [raw|].
  - exists (analytics.mkHit x raw :: hits).
    rewrite T_bind_value, T_bind_trace, Hv. cbn. rewrite app_nil_r.
    split; [done|]. split; [|done]. cbn in Hlen. lia.
  - exists hits. rewrite T_bind_value, T_bind_trace. cbn.
    split; [done|]. split; [cbn in Hlen; lia|]. by constructor.
Qed.

(** X11: of the first ten hits of a response each one is either stored or
    logged as a source that does not marshal: the hits kept and the lines
    logged add up to ten, or to the number of hits when there are fewer, and
    the loop logs nothing else and always yields its hits. *)
Theorem hits_stored_or_logged ext (hs : list searchHit) :
  exists hits,
    (analytics.hitsLoop ext 10 hs).2 = Some hits /\
    length (analytics.hitsLoop ext 10 hs).1 + length hits = min 10 (length hs) /\
    Forall (fun e => e = EvLog LogMarshalSource) (analytics.hitsLoop ext 10 hs).1.
Proof. apply hitsLoop_accounts. Qed.

(** X12: an [_msearch] answer that decodes to an empty list of responses is
    still recorded for a new search whose indices are in the context: under
    the doc id, with took 0, total_hits 0 and no hits. *)
Theorem empty_msearch_is_recorded ext now docID w r ctxIndices :
  GoStrings.Contains (r_RequestURI r) "_msearch" = true ->
  json_Unmarshal_msearch ext (analytics.replaceFields (w_Body w)) = Some (mkMSearchResponse []) ->
  r_ctxIndices r = Some ctxIndices ->
  exists rec,
    storeCalls (analytics.recordResponse ext now docID "" w r).1 = [(docID, rec)] /\
    rec !! "took" = Some (VFloat 0%float) /\
    rec !! "total_hits" = Some (VInt 0) /\
    rec !! "hits_in_response" = Some (VHits []) /\
    rec !! "indices" = Some (VStrings ctxIndices).
Proof.
  intros Huri Hdec Hidx. rewrite storeCalls_recordResponse.
  unfold analytics.decodeResponse. rewrite Huri, Hdec. cbn [snd mret T_ret Responses].
  rewrite buildRecord_value. unfold recordOf, searchPart.
  rewrite bool_decide_eq_true_2 by done. rewrite Hidx. cbn [mbind option_bind fmap option_fmap option_map].
  eexists. split; [reflexivity|].
  rewrite !followUpPart_other by (apply (bool_decide_eq_false_1 _); vm_compute; reflexivity).
  rewrite !lookup_optInsert_ne by done.
  repeat split; by simplify_map_eq.
Qed.

Lemma empty_msearch_is_recorded_witness :
  exists rec,
    storeCalls (analytics.recordResponse demo.ext demo.now "uuid" ""
                  (mkWriter [] true 200 [] "{}") demo.msearchRequest).1 = [("uuid", rec)] /\
    rec !! "total_hits" = Some (VInt 0).
Proof.
  destruct (empty_msearch_is_recorded demo.ext demo.now "uuid" (mkWriter [] true 200 [] "{}")
              demo.msearchRequest ["a"; "b"]) as (rec & Hcalls & _ & Htotal & _).
  - reflexivity.
  - vm_compute. reflexivity.
  - reflexivity.
  - exists rec. split; [exact Hcalls | exact Htotal].
Defined.

Lemma Replace_no_occurrence old new s :
  GoStrings.Contains s old = false -> GoStrings.Replace s old new = s.
Proof.
  unfold GoStrings.Replace. induction s as [|c s IH]; [done|].
  cbn [GoStrings.Contains GoStrings.replaceFrom]. intros [Hp Hs]%orb_false_iff.
  rewrite Hp. by rewrite IH.
Qed.

(** X13: a body in which none of [_source], [_type] and [_id] occurs is
    decoded as the recorder holds it: the three replacements leave it as it
    is. *)
Theorem replaceFields_without_names body :
  GoStrings.Contains body "_source" = false ->
  GoStrings.Contains body "_type" = false ->
  GoStrings.Contains body "_id" = false ->
  analytics.replaceFields body = body.
Proof.
  intros Hs Ht Hi. unfold analytics.replaceFields.
  by rewrite (Replace_no_occurrence _ _ _ Hs), (Replace_no_occurrence _ _ _ Ht),
    (Replace_no_occurrence _ _ _ Hi).
Qed.

Lemma replaceFields_without_names_witness :
  analytics.replaceFields (demo.searchJSON "") = demo.searchJSON "".
Proof. apply replaceFields_without_names; vm_compute; reflexivity. Defined.
(** ** More of the bootstrap, and the other functions of the logs store *)

(** X14: [initPlugin] succeeds exactly when the existence check answers
    and either the index is there or both the node count and the creation
    go through; the store it returns carries the index name it was given. *)
Theorem initPlugin_succeeds_iff f indexName config c :
  ((exists es c' calls, logs.initPlugin f indexName config c = (inr es, c', calls)) <->
   (logs.failExists f = false /\
    (is_Some (logs.indices c !! indexName) \/
     (logs.failNodes f = false /\ logs.failCreate f = false)))) /\
  forall es c' calls,
    logs.initPlugin f indexName config c = (inr es, c', calls) ->
    logs.indexName es = indexName.
Proof.
  unfold logs.initPlugin, logs.IndexExists, logs.GetTotalNodes, logs.CreateIndex.
  split; [split|].
  - intros (es & c' & calls & H). destruct (logs.failExists f); [done|]. split; [done|].
    destruct (logs.indices c !! indexName) as [s|]; [left; eauto | right].
    rewrite (bool_decide_eq_false_2 (is_Some None)) in H by (by intros [? ?]).
    destruct (logs.failNodes f); [done|]. rewrite orb_false_r in H.
    by destruct (logs.failCreate f).
  - intros [-> [Hex | [-> ->]]].
    + rewrite (bool_decide_eq_true_2 _ Hex). eauto.
    + destruct (bool_decide (is_Some (logs.indices c !! indexName))); cbn; eauto.
  - intros es c' calls. repeat case_match; by intros [= <- _ _].
Qed.

(** X15: when [initPlugin] fails, the error names the first call that
    failed, no call is made after it, and the cluster is left as it was:
    the node count is asked for only after the existence check answered that
    the index is missing, and the index is created only after the node count
    was obtained. *)
Theorem initPlugin_failure f indexName config c e c' calls :
  logs.initPlugin f indexName config c = (inl e, c', calls) ->
  c' = c /\
  match e with
  | logs.ErrIndexExists =>
      logs.failExists f = true /\ calls = [logs.CallIndexExists indexName]
  | logs.ErrTotalNodes =>
      logs.failExists f = false /\ logs.indices c !! indexName = None /\
      logs.failNodes f = true /\
      calls = [logs.CallIndexExists indexName; logs.CallGetTotalNodes]
  | logs.ErrCreateIndex name =>
      name = indexName /\
      logs.failExists f = false /\ logs.indices c !! indexName = None /\
      logs.failNodes f = false /\ logs.failCreate f = true /\
      calls = [logs.CallIndexExists indexName; logs.CallGetTotalNodes;
               logs.CallCreateIndex indexName
                 (logs.mkSettings config [logs.nodes c; int_sub (logs.nodes c) 1])]
  end.
Proof.
  unfold logs.initPlugin, logs.IndexExists, logs.GetTotalNodes, logs.CreateIndex.
  destruct (logs.failExists f); [by intros [= <- <- <-]|].
  destruct (logs.indices c !! indexName) as [s|] eqn:E.
  { rewrite (bool_decide_eq_true_2 (is_Some (Some s))) by eauto. by intros [=]. }
  rewrite (bool_decide_eq_false_2 (is_Some None)) by (by intros [? ?]).
  destruct (logs.failNodes f); [by intros [= <- <- <-]|].
  rewrite orb_false_r. destruct (logs.failCreate f); [|by intros [=]].
  by intros [= <- <- <-].
Qed.

Lemma initPlugin_failure_witness :
  logs.initPlugin (logs.mkFaults false true false) ".logs" demo.config (demo.cluster 3)
  = (inl logs.ErrTotalNodes, demo.cluster 3,
     [logs.CallIndexExists ".logs"; logs.CallGetTotalNodes]).
Proof.
  assert (exists c' calls,
    logs.initPlugin (logs.mkFaults false true false) ".logs" demo.config (demo.cluster 3)
    = (inl logs.ErrTotalNodes, c', calls)) as (c' & calls & Hinit)
    by (eexists _, _; vm_compute; reflexivity).
  rewrite Hinit.
  destruct (initPlugin_failure _ _ _ _ _ _ _ Hinit) as (-> & _ & _ & _ & ->).
  reflexivity.
Defined.

(** X16: whatever its outcome, [initPlugin] leaves the node count and
    every other index of the cluster as they were, never replaces the body
    of an index that is there (and then creates nothing), and asks for at
    most one creation, of the index it was given. *)
Theorem initPlugin_frame f indexName config c res c' calls :
  logs.initPlugin f indexName config c = (res, c', calls) ->
  logs.nodes c' = logs.nodes c /\
  (forall name, name ≠ indexName -> logs.indices c' !! name = logs.indices c !! name) /\
  (forall s, logs.indices c !! indexName = Some s ->
     logs.indices c' !! indexName = Some s /\ logs.creations calls = []) /\
  length (logs.creations calls) <= 1 /\
  (forall name body, (name, body) ∈ logs.creations calls -> name = indexName).
Proof.
  unfold logs.initPlugin, logs.IndexExists, logs.GetTotalNodes, logs.CreateIndex.
  assert (forall (c0 : logs.Cluster) (calls0 : list logs.Call),
    (forall s, logs.indices c !! indexName = Some s ->
       logs.indices c0 !! indexName = Some s /\ logs.creations calls0 = []) ->
    logs.nodes c0 = logs.nodes c ->
    (forall name, name ≠ indexName -> logs.indices c0 !! name = logs.indices c !! name) ->
    (logs.creations calls0 = [] \/ exists body, logs.creations calls0 = [(indexName, body)]) ->
    logs.nodes c0 = logs.nodes c /\
    (forall name, name ≠ indexName -> logs.indices c0 !! name = logs.indices c !! name) /\
    (forall s, logs.indices c !! indexName = Some s ->
       logs.indices c0 !! indexName = Some s /\ logs.creations calls0 = []) /\
    length (logs.creations calls0) <= 1 /\
    (forall name body, (name, body) ∈ logs.creations calls0 -> name = indexName)) as Hall.
  { intros c0 calls0 H3 H1 H2 Hcalls. split; [done|]. split; [done|]. split; [done|].
    destruct Hcalls as [-> | [body ->]]; (split; [simpl; lia|]); intros name b Hin.
    - by apply elem_of_nil in Hin.
    - by apply list_elem_of_singleton in Hin as [= -> _]. }
  destruct (logs.failExists f).
  { intros [= <- <- <-]. apply Hall; auto. }
  destruct (logs.indices c !! indexName) as [s|] eqn:E.
  { rewrite (bool_decide_eq_true_2 (is_Some (Some s))) by eauto.
    intros [= <- <- <-]. apply Hall; auto. intros s' [= <-]. by rewrite E. }
  rewrite (bool_decide_eq_false_2 (is_Some None)) by (by intros [? ?]).
  destruct (logs.failNodes f).
  { intros [= <- <- <-]. apply Hall; auto. by intros s'. }
  rewrite orb_false_r. destruct (logs.failCreate f).
  - intros [= <- <- <-]. apply Hall; auto; [by intros s' | right; by eexists].
  - intros [= <- <- <-]. apply Hall; auto; [by intros s' | | right; by eexists].
    intros name Hne. cbn. by rewrite lookup_insert_ne.
Qed.

Lemma initPlugin_frame_witness :
  logs.indices
    (logs.initPlugin demo.noFaults ".logs" demo.config
       (logs.mkCluster {[ "twitter" := logs.mkSettings demo.config [1; 0]%Z ]} 3)).1.2
    !! "twitter" = Some (logs.mkSettings demo.config [1; 0]%Z).
Proof.
  destruct (logs.initPlugin demo.noFaults ".logs" demo.config
       (logs.mkCluster {[ "twitter" := logs.mkSettings demo.config [1; 0]%Z ]} 3))
    as [[res c'] calls] eqn:Hinit.
  destruct (initPlugin_frame _ _ _ _ _ _ _ Hinit) as (_ & Hother & _).
  cbn [fst snd]. rewrite Hother by discriminate. reflexivity.
Defined.

(** X17: the store [initPlugin] returns writes its records, as documents
    of type [_doc], to the index [initPlugin] was given, which the cluster
    has when [initPlugin] returns; an error of the bulk call is logged and
    nothing else. *)
Theorem indexRecord_after_init {Doc : Type} f indexName config c es c' calls
    (bulkFails : bool) (rec : Doc) :
  logs.initPlugin f indexName config c = (inr es, c', calls) ->
  logs.bulk_Index (logs.indexRecord bulkFails es rec).1 = indexName /\
  logs.bulk_Type (logs.indexRecord bulkFails es rec).1 = "_doc" /\
  logs.bulk_Doc (logs.indexRecord bulkFails es rec).1 = rec /\
  is_Some (logs.indices c' !! logs.bulk_Index (logs.indexRecord bulkFails es rec).1) /\
  (logs.indexRecord bulkFails es rec).2 = bulkFails.
Proof.
  intros Hinit.
  destruct (initPlugin_success _ _ _ _ _ _ _ Hinit) as (Hex & _).
  assert (logs.indexName es = indexName) as Hname.
  { revert Hinit. unfold logs.initPlugin. repeat case_match; by intros [= <- _ _]. }
  unfold logs.indexRecord. cbn. rewrite Hname. done.
Qed.

Lemma indexRecord_after_init_witness :
  logs.initPlugin demo.noFaults ".logs" demo.config (demo.cluster 3)
  = (inr (logs.mkElasticsearch ".logs"),
     logs.mkCluster {[ ".logs" := logs.mkSettings demo.config [3; 2]%Z ]} 3,
     [logs.CallIndexExists ".logs"; logs.CallGetTotalNodes;
      logs.CallCreateIndex ".logs" (logs.mkSettings demo.config [3; 2]%Z)]) /\
  logs.bulk_Index (logs.indexRecord false (logs.mkElasticsearch ".logs") "line").1 = ".logs".
Proof.
  assert (logs.initPlugin demo.noFaults ".logs" demo.config (demo.cluster 3)
  = (inr (logs.mkElasticsearch ".logs"),
     logs.mkCluster {[ ".logs" := logs.mkSettings demo.config [3; 2]%Z ]} 3,
     [logs.CallIndexExists ".logs"; logs.CallGetTotalNodes;
      logs.CallCreateIndex ".logs" (logs.mkSettings demo.config [3; 2]%Z)])) as Hinit
    by (vm_compute; reflexivity).
  split; [exact Hinit|].
  exact (proj1 (indexRecord_after_init _ _ _ _ _ _ _ false "line" Hinit)).
Defined.

Lemma digits_range s : forall acc n,
  strconv.digits s acc = Some n -> (0 <= acc)%Z -> (acc <= n)%Z.
Proof.
  induction s as [|ch s IH]; intros acc n; simpl.
  - intros [= <-] _. lia.
  - unfold url.between. destruct (_ && _) eqn:E; [|done].
    apply andb_true_iff in E as [Hlo Hhi].
    apply Nat.leb_le in Hlo. apply Nat.leb_le in Hhi.
    intros Hd Hacc. apply IH in Hd; lia.
Qed.

Lemma Atoi_range s n :
  strconv.Atoi s = Some n -> (strconv.minInt <= n <= strconv.maxInt)%Z.
Proof.
  unfold strconv.Atoi. destruct s as [|ch s]; [done|].
  destruct (if Ascii.eqb ch "-" then _ else _) as [neg body].
  destruct body as [|b body]; [done|].
  destruct (strconv.digits _ 0) as [m|]; [|done]. cbn.
  destruct (_ && _) eqn:E; [|done]. intros [= <-].
  apply andb_true_iff in E as [Hlo Hhi]. lia.
Qed.

(** X18: [getRawLogs] reaches a back end only when [from] and [size] both
    parse as Go ints, and then hands it exactly the parsed numbers (any
    int, a negative one too) with the other arguments as given: the ES6 one
    when the version is 6 and the ES7 one for every other version.
    Otherwise it returns the error for the first bad parameter, [from]
    before [size], with the value as it was given. *)
Theorem getRawLogs_validation (Raw : Type) es6 es7 version es from size filter indices :
  match logs.getRawLogs Raw es6 es7 version es from size filter indices with
  | inl (logs.InvalidParam value param) =>
      (param = "from" /\ value = from /\ strconv.Atoi from = None) \/
      (param = "size" /\ value = size /\ is_Some (strconv.Atoi from) /\
       strconv.Atoi size = None)
  | inr raw =>
      exists offset s,
        strconv.Atoi from = Some offset /\ strconv.Atoi size = Some s /\
        (strconv.minInt <= offset <= strconv.maxInt)%Z /\
        (strconv.minInt <= s <= strconv.maxInt)%Z /\
        raw = (if (version =? 6)%Z then es6 else es7) es from s filter offset indices
  end.
Proof.
  unfold logs.getRawLogs.
  destruct (strconv.Atoi from) as [offset|] eqn:Hfrom; [|by left].
  destruct (strconv.Atoi size) as [s|] eqn:Hsize; [|right; eauto].
  pose proof (Atoi_range _ _ Hfrom) as [? ?]. pose proof (Atoi_range _ _ Hsize) as [? ?].
  destruct (version =? 6)%Z; exists offset, s; repeat split; done.
Qed.

(** ** The singleton of the elasticsearch plugin *)

Lemma Instance_iter (api : Type) n : forall g : elasticsearch.Globals api,
  Nat.iter n (elasticsearch.Instance api) g
  = elasticsearch.mkGlobals api
      (match n with
       | O => elasticsearch.singleton api g
       | S _ => if elasticsearch.once api g then elasticsearch.singleton api g
                else Some (elasticsearch.mkElasticsearch api [])
       end)
      (match n with O => elasticsearch.once api g | S _ => true end)
      (elasticsearch.stdout api g ++ replicate n "Initializing elasticsearch").
Proof.
  induction n as [|n IH]; intros g.
  - destruct g. cbn. by rewrite app_nil_r.
  - rewrite Nat.iter_succ, IH. unfold elasticsearch.Instance at 1. cbn.
    rewrite <- app_assoc.
    replace (replicate n "Initializing elasticsearch" ++ ["Initializing elasticsearch"])
      with ("Initializing elasticsearch" :: replicate n "Initializing elasticsearch").
    2:{ clear. induction n as [|n IHn]; [done|]. cbn. by rewrite <- IHn. }
    destruct n; [|done]. by destruct (elasticsearch.once api g).
Qed.

(** X19: however often [Instance] is called, the singleton is made once:
    from the program's start every call after the first returns the instance
    the first one made, and an instance that is there (with whatever has
    been stored in it since) is never replaced; each call prints its line,
    also when nothing is initialised. *)
Theorem Instance_makes_one (api : Type) n (g : elasticsearch.Globals api) :
  Nat.iter (S n) (elasticsearch.Instance api) (elasticsearch.start api)
  = elasticsearch.mkGlobals api (Some (elasticsearch.mkElasticsearch api [])) true
      (replicate (S n) "Initializing elasticsearch") /\
  elasticsearch.singleton api (Nat.iter (S n) (elasticsearch.Instance api) g)
  = (if elasticsearch.once api g then elasticsearch.singleton api g
     else Some (elasticsearch.mkElasticsearch api [])) /\
  elasticsearch.stdout api (Nat.iter n (elasticsearch.Instance api) g)
  = elasticsearch.stdout api g ++ replicate n "Initializing elasticsearch".
Proof.
  rewrite !Instance_iter. done.
Qed.

(** * The doc id and the failing header, from the headers as the caller sent them *)

Lemma QueryUnescape_empty s : url.QueryUnescape s = Some "" -> s = "".
Proof.
  destruct s as [|c s]; [done|]. simpl.
  destruct (Ascii.eqb c "%").
  - destruct s as [|a [|b s]]; try done.
    destruct (url.ishex a && url.ishex b); [|done].
    by destruct (url.QueryUnescape s).
  - destruct (Ascii.eqb c "+"); by destruct (url.QueryUnescape s).
Qed.

(** What the loop leaves under a key, when it runs through: the value the
    caller's first value unescapes to, also when the key is not there. *)
Lemma decoded_Get r k :
  NoDup (http.Header_keys (r_Header r)) ->
  (decoded r).2 = true ->
  GoStrings.HasPrefix k "X-Search-" = true ->
  exists v, url.QueryUnescape (http.Header_Get (r_Header r) k) = Some v /\
            http.Header_Get (decoded r).1 k = v.
Proof.
  intros Hnd Hok Hp. unfold decoded in *.
  destruct (decide (k ∈ http.Header_keys (r_Header r))) as [Hin|Hout].
  - destruct (decode_success _ (r_Header r) k Hnd Hok Hin Hp) as (v & Hv & Hval).
    exists v. split; [done|]. unfold http.Header_Get. by rewrite Hval.
  - exists "". unfold http.Header_Get at 1. rewrite (Header_values_None _ _ Hout).
    split; [done|].
    destruct (decode_values _ (r_Header r) k Hnd) as [Hv | (Hin & _)]; [|done].
    unfold http.Header_Get. by rewrite Hv, (Header_values_None _ _ Hout).
Qed.

(** C2, as the code has it: for a recorded request (each header key held
    once, as in a Go map) the doc id is the value the X-Search-Id the caller
    sent unescapes to when the caller sent one, which is then not empty, and
    the value of [uuid.New()] when the caller sent none; the header map of
    the client's writer holds X-Search-Id = doc id (and so do the headers
    sent, when the status line had not gone out before); exactly one task is
    started, it carries that doc id, whatever the task hands to the store it
    hands over under that doc id, at most once, and it does hand a record
    over when the body decodes and the event is a follow-up or the indices
    are in the context. *)
Theorem recorder_doc_id ext h uuid_New w r :
  recording r ->
  NoDup (http.Header_keys (r_Header r)) ->
  let s := run (analytics.recorder ext h uuid_New r) w in
  let docID := docID_of uuid_New r in
  (exists v,
     url.QueryUnescape (http.Header_Get (r_Header r) analytics.XSearchID) = Some v /\
     searchID_of r = v /\
     (http.Header_Get (r_Header r) analytics.XSearchID ≠ "" -> v ≠ "" /\ docID = v) /\
     (http.Header_Get (r_Header r) analytics.XSearchID = "" -> v = "" /\ docID = uuid_New)) /\
  http.Header_Get (w_Header (client s)) analytics.XSearchID = docID /\
  (w_wroteHeader w = false ->
   http.Header_Get (w_snapHeader (client s)) analytics.XSearchID = docID) /\
  spawned (trace s) = [task_of h uuid_New r] /\
  taskDocID (task_of h uuid_New r) = docID /\
  taskSearchID (task_of h uuid_New r) = searchID_of r /\
  (forall now,
     storeCalls (analytics.runTask ext now (task_of h uuid_New r)) = [] \/
     exists rec,
       storeCalls (analytics.runTask ext now (task_of h uuid_New r)) = [(docID, rec)]) /\
  (forall now,
     completes (analytics.decodeResponse ext (r_RequestURI (taskR (task_of h uuid_New r)))
                  (analytics.replaceFields (w_Body (respRecorder_of h r)))) ->
     searchID_of r ≠ "" \/ is_Some (r_ctxIndices (taskR (task_of h uuid_New r))) ->
     exists rec,
       storeCalls (analytics.runTask ext now (task_of h uuid_New r)) = [(docID, rec)]).
Proof.
  intros Hrec Hnd s docID. subst s. rewrite (recorder_recording _ _ _ _ _ Hrec).
  rewrite replay_clientWrites. cbn [client trace]. subst docID.
  split; [|split; [|split; [|split; [|split; [|split; [|split]]]]]].
  - destruct Hrec as (_ & Hok & _).
    destruct (decoded_Get r analytics.XSearchID Hnd Hok eq_refl) as (v & Hv & Hget).
    exists v. split; [done|]. split; [done|]. unfold docID_of, searchID_of. rewrite Hget.
    split.
    + intros Hraw. assert (v ≠ "") as Hne.
      { intros ->. by apply QueryUnescape_empty in Hv. }
      split; [done|]. by rewrite bool_decide_eq_false_2.
    + intros Hraw. rewrite Hraw in Hv. injection Hv as <-. split; [done|].
      by rewrite bool_decide_eq_true_2.
  - apply copied_Header.
  - intros Hw. destruct (copied_sent (respRecorder_of h r) (docID_of uuid_New r) w Hw)
      as (_ & _ & ->). apply copied_Header.
  - change (spawned ([EvServe OnRecorder (decodedRequest r)]
                     ++ clientWrites (respRecorder_of h r) (docID_of uuid_New r)
                     ++ [EvGo (task_of h uuid_New r)]) = [task_of h uuid_New r]).
    unfold spawned. rewrite !omap_app.
    fold (spawned (clientWrites (respRecorder_of h r) (docID_of uuid_New r))).
    by rewrite spawned_clientWrites.
  - reflexivity.
  - reflexivity.
  - intros now. unfold analytics.runTask. rewrite storeCalls_recordResponse.
    cbn [taskDocID taskSearchID taskW taskR task_of].
    repeat case_match; eauto.
  - intros now [esResponse Hdec] Hcase. unfold analytics.runTask.
    rewrite storeCalls_recordResponse.
    cbn [taskDocID taskSearchID taskW taskR task_of] in *. fold (respRecorder_of h r).
    rewrite Hdec.
    destruct (buildRecord_completes ext now (searchID_of r) _ esResponse Hcase) as [rec ->].
    eauto.
Qed.

Lemma recorder_doc_id_witness :
  recording demo.escapedID /\
  NoDup (http.Header_keys (r_Header demo.escapedID)) /\
  http.Header_Get (r_Header demo.escapedID) analytics.XSearchID = "a+b%2Fc" /\
  docID_of "uuid" demo.escapedID = "a b/c" /\
  http.Header_Get
    (w_snapHeader (client (run (analytics.recorder demo.ext demo.upstream "uuid" demo.escapedID)
                               demo.clientWriter)))
    analytics.XSearchID = "a b/c" /\
  spawned (trace (run (analytics.recorder demo.ext demo.upstream "uuid" demo.escapedID)
                      demo.clientWriter))
  = [task_of demo.upstream "uuid" demo.escapedID] /\
  exists rec,
    storeCalls (analytics.runTask demo.ext demo.now (task_of demo.upstream "uuid" demo.escapedID))
    = [("a b/c", rec)].
Proof.
  assert (Hrec : recording demo.escapedID).
  { split; [reflexivity|]. split; [vm_compute; reflexivity|].
    intros [_ H]; vm_compute in H; discriminate. }
  assert (Hnd : NoDup (http.Header_keys (r_Header demo.escapedID)))
    by (apply (bool_decide_unpack _); vm_compute; exact I).
  pose proof (recorder_doc_id demo.ext demo.upstream "uuid" demo.clientWriter demo.escapedID
                Hrec Hnd) as H.
  cbv zeta in H. destruct H as ((v & Hv & _ & Hsent & _) & _ & H4 & H5 & _ & _ & _ & H8).
  assert (v = "a b/c") as -> by (vm_compute in Hv; by injection Hv as <-).
  destruct Hsent as [_ HdocID]; [discriminate|].
  split; [exact Hrec|]. split; [exact Hnd|]. split; [reflexivity|].
  split; [exact HdocID|]. split; [|split].
  - rewrite (H4 eq_refl). exact HdocID.
  - exact H5.
  - destruct (H8 demo.now) as [rec Hcalls].
    + vm_compute. eauto.
    + left. vm_compute. discriminate.
    + exists rec. rewrite Hcalls. by rewrite HdocID.
Defined.

(** C2 as stated fails: the caller sends X-Search-Id [a+b%2Fc]; the doc id,
    the X-Search-Id sent back and the id the record is stored under are all
    [a b/c], not the header the caller sent. *)
Lemma doc_id_is_not_the_header_sent :
  recording demo.escapedID /\
  http.Header_Get (r_Header demo.escapedID) analytics.XSearchID = "a+b%2Fc" /\
  docID_of "uuid" demo.escapedID = "a b/c" /\
  http.Header_Get
    (w_snapHeader (client (run (analytics.recorder demo.ext demo.upstream "uuid" demo.escapedID)
                               demo.clientWriter)))
    analytics.XSearchID = "a b/c" /\
  (storeCalls (analytics.runTask demo.ext demo.now
                 (task_of demo.upstream "uuid" demo.escapedID))).*1 = ["a b/c"] /\
  docID_of "uuid" demo.escapedID
    ≠ http.Header_Get (r_Header demo.escapedID) analytics.XSearchID.
Proof.
  split.
  { split; [reflexivity|]. split; [vm_compute; reflexivity|].
    intros [_ H]; vm_compute in H; discriminate. }
  split; [reflexivity|]. split; [vm_compute; reflexivity|].
  split; [vm_compute; reflexivity|]. split; [vm_compute; reflexivity|].
  vm_compute. discriminate.
Qed.

(** ** The header loop, left at a header that does not unescape *)

Lemma decode_app pre : forall rest hdr,
  analytics.decodeHeaders (pre ++ rest) hdr =
  if (analytics.decodeHeaders pre hdr).2
  then analytics.decodeHeaders rest (analytics.decodeHeaders pre hdr).1
  else analytics.decodeHeaders pre hdr.
Proof.
  induction pre as [|header pre IH]; intros rest hdr; [done|]. cbn [app analytics.decodeHeaders].
  destruct (GoStrings.HasPrefix header _); [|apply IH].
  destruct (url.QueryUnescape _); [apply IH | done].
Qed.

Lemma decode_runs_through keys : forall hdr,
  NoDup keys ->
  (forall k, k ∈ keys -> GoStrings.HasPrefix k "X-Search-" = true ->
     is_Some (url.QueryUnescape (http.Header_Get hdr k))) ->
  (analytics.decodeHeaders keys hdr).2 = true.
Proof.
  induction keys as [|header keys IH]; intros hdr Hnd Hall; [done|].
  apply NoDup_cons in Hnd as [Hnotin Hnd]. cbn [analytics.decodeHeaders].
  assert (forall k, k ∈ keys -> GoStrings.HasPrefix k "X-Search-" = true ->
            is_Some (url.QueryUnescape (http.Header_Get hdr k))) as Hrest.
  { intros k Hk. apply Hall. apply elem_of_cons. by right. }
  destruct (GoStrings.HasPrefix header _) eqn:Hp; [|by apply IH].
  destruct (Hall header) as [v Hv]; [apply elem_of_cons; by left | done |].
  rewrite Hv. apply IH; [done|]. intros k Hk Hpk. unfold http.Header_Set.
  rewrite Header_Get_assign_ne; [by apply Hrest|]. intros ->. done.
Qed.

(** The first header, in the order the loop visits them, that does not
    unescape. *)
Lemma first_failing hdr keys : forall k,
  k ∈ keys ->
  GoStrings.HasPrefix k "X-Search-" = true ->
  url.QueryUnescape (http.Header_Get hdr k) = None ->
  exists pre k0 post,
    keys = pre ++ k0 :: post /\
    GoStrings.HasPrefix k0 "X-Search-" = true /\
    url.QueryUnescape (http.Header_Get hdr k0) = None /\
    forall k', k' ∈ pre -> GoStrings.HasPrefix k' "X-Search-" = true ->
      is_Some (url.QueryUnescape (http.Header_Get hdr k')).
Proof.
  induction keys as [|a keys IH]; intros k Hin Hp Hu; [by apply elem_of_nil in Hin|].
  destruct (GoStrings.HasPrefix a "X-Search-") eqn:Hpa;
    [destruct (url.QueryUnescape (http.Header_Get hdr a)) as [v|] eqn:Hva|].
  - apply elem_of_cons in Hin as [->|Hin]; [congruence|].
    destruct (IH k Hin Hp Hu) as (pre & k0 & post & -> & Hp0 & Hu0 & Hpre).
    exists (a :: pre), k0, post. split; [done|]. split; [done|]. split; [done|].
    intros k' [->|Hk']%elem_of_cons Hpk'; [by rewrite Hva | by apply Hpre].
  - exists [], a, keys. split; [done|]. split; [done|]. split; [done|].
    by intros k' ?%elem_of_nil.
  - apply elem_of_cons in Hin as [->|Hin]; [congruence|].
    destruct (IH k Hin Hp Hu) as (pre & k0 & post & -> & Hp0 & Hu0 & Hpre).
    exists (a :: pre), k0, post. split; [done|]. split; [done|]. split; [done|].
    intros k' [->|Hk']%elem_of_cons Hpk'; [congruence | by apply Hpre].
Qed.

(** The header map when the loop is left at [k0], after the keys [pre]. *)
Lemma decode_left_at hdr pre k0 post :
  NoDup (pre ++ k0 :: post) ->
  GoStrings.HasPrefix k0 "X-Search-" = true ->
  url.QueryUnescape (http.Header_Get hdr k0) = None ->
  (forall k', k' ∈ pre -> GoStrings.HasPrefix k' "X-Search-" = true ->
     is_Some (url.QueryUnescape (http.Header_Get hdr k'))) ->
  analytics.decodeHeaders (pre ++ k0 :: post) hdr
  = ((analytics.decodeHeaders pre hdr).1, false).
Proof.
  intros Hnd Hp0 Hu0 Hpre.
  apply NoDup_app in Hnd as (Hndpre & Hdisj & Hndrest).
  rewrite decode_app, (decode_runs_through pre hdr Hndpre Hpre).
  cbn [analytics.decodeHeaders]. rewrite Hp0.
  assert (http.Header_Get (analytics.decodeHeaders pre hdr).1 k0 = http.Header_Get hdr k0)
    as ->; [|by rewrite Hu0].
  destruct (decode_values pre hdr k0 Hndpre) as [Hv | (Hin & _)].
  - unfold http.Header_Get. by rewrite Hv.
  - exfalso. apply (Hdisj k0 Hin). apply elem_of_cons. by left.
Qed.

(** C10, as the code has it: when the value of an X-Search-* header does not
    unescape (the request has a category in its context, and its header
    map holds each key once, as a Go map does), the recorder logs and calls
    the inner handler on the client's writer, and does nothing else: it
    writes no status, adds no X-Search-Id and starts no task.  The loop is
    left at the first such header [k0] in the order it visits the keys,
    after the keys [pre]: the request handed on has the keys it came with,
    every X-Search-* header among [pre] holds the one value its first value
    unescapes to, and every other header, the failing one and those after it
    too, is as received. *)
Theorem unescape_failure_passes_through ext h uuid_New w r c k :
  r_ctxCategory r = Some c ->
  NoDup (http.Header_keys (r_Header r)) ->
  k ∈ http.Header_keys (r_Header r) ->
  GoStrings.HasPrefix k "X-Search-" = true ->
  url.QueryUnescape (http.Header_Get (r_Header r) k) = None ->
  run (analytics.recorder ext h uuid_New r) w =
    mkWorld (h w (decodedRequest r)).1
            [EvLog LogHeaderDecode; EvServe OnClient (decodedRequest r)] /\
  http.Header_keys (r_Header (decodedRequest r)) = http.Header_keys (r_Header r) /\
  exists pre k0 post,
    http.Header_keys (r_Header r) = pre ++ k0 :: post /\
    GoStrings.HasPrefix k0 "X-Search-" = true /\
    url.QueryUnescape (http.Header_Get (r_Header r) k0) = None /\
    (forall k', k' ∈ pre -> GoStrings.HasPrefix k' "X-Search-" = true ->
       exists v, url.QueryUnescape (http.Header_Get (r_Header r) k') = Some v /\
                 http.Header_values (r_Header (decodedRequest r)) k' = Some [v]) /\
    (forall k', k' ∉ pre \/ GoStrings.HasPrefix k' "X-Search-" = false ->
       http.Header_values (r_Header (decodedRequest r)) k'
       = http.Header_values (r_Header r) k').
Proof.
  intros Hc Hnd Hin Hp Hu.
  pose proof (decode_fails _ _ _ Hin Hp Hu) as Hfail. fold (decoded r) in Hfail.
  split; [|split].
  - unfold run, analytics.recorder. rewrite Hc. unfold decodedRequest.
    fold (decoded r). destruct (decoded r) as [hdr ok]. simpl in *. by subst ok.
  - apply decode_keys. done.
  - destruct (first_failing (r_Header r) _ k Hin Hp Hu)
      as (pre & k0 & post & Hkeys & Hp0 & Hu0 & Hpre).
    exists pre, k0, post. split; [done|]. split; [done|]. split; [done|].
    assert (NoDup pre) as Hndpre.
    { rewrite Hkeys in Hnd. by apply NoDup_app in Hnd as (? & _). }
    assert (r_Header (decodedRequest r) = (analytics.decodeHeaders pre (r_Header r)).1) as ->.
    { unfold decodedRequest, decoded. cbn [r_Header withHeader]. rewrite Hkeys.
      rewrite decode_left_at; [done| |done..]. by rewrite <- Hkeys. }
    split.
    + intros k' Hk' Hpk'. apply decode_success; [done| |done..].
      by apply decode_runs_through.
    + intros k' Hcase.
      destruct (decode_values pre (r_Header r) k' Hndpre) as [Hv | (Hk' & Hpk' & _)]; [done|].
      destruct Hcase as [Hout | Hnp]; [done | congruence].
Qed.

Lemma unescape_failure_passes_through_witness :
  url.QueryUnescape (http.Header_Get (r_Header demo.badEscape) "X-Search-Id") = None /\
  run (analytics.recorder demo.ext demo.echo "uuid" demo.badEscape) demo.clientWriter =
    mkWorld (mkWriter [] true 200 [] "a b")
            [EvLog LogHeaderDecode;
             EvServe OnClient
               (demo.request category.Search
                  [("X-Search-Query", ["a b"]); ("X-Search-Id", ["%zz"])])] /\
  http.Header_values (r_Header (decodedRequest demo.badEscape)) "X-Search-Id" = Some ["%zz"].
Proof.
  split; [reflexivity|].
  destruct (unescape_failure_passes_through demo.ext demo.echo "uuid" demo.clientWriter
              demo.badEscape category.Search "X-Search-Id")
    as (-> & _ & pre & k0 & post & Hkeys & Hp0 & Hu0 & _ & Hother).
  - reflexivity.
  - apply (bool_decide_unpack _). vm_compute. exact I.
  - apply (bool_decide_unpack _). vm_compute. exact I.
  - reflexivity.
  - reflexivity.
  - split; [vm_compute; reflexivity|].
    rewrite Hother; [reflexivity|]. left. intros Hin.
    assert (NoDup (pre ++ k0 :: post)) as Hnd.
    { rewrite <- Hkeys. apply (bool_decide_unpack _). vm_compute. exact I. }
    apply NoDup_app in Hnd as (_ & Hdisj & _).
    assert ("X-Search-Id" ∈ k0 :: post) as Hrest; [|by apply (Hdisj _ Hin)].
    vm_compute in Hkeys. destruct pre as [|p pre]; [|destruct pre as [|p' pre]].
    + injection Hkeys as <- <-. vm_compute in Hu0. discriminate.
    + injection Hkeys as <- <- <-. apply elem_of_cons. by left.
    + injection Hkeys as <- <- Hnil. by destruct pre.
Defined.
